(** * Placeholders and content items of django-fluent-contents

    A shallow embedding of [fluent_contents/models/db.py]: the
    [Placeholder] and [ContentItem] models, their lifecycle hooks
    ([save], [delete], [clear_cache], [get_cache_keys]), the two query
    modes of [Placeholder.get_content_items], the URL helpers and the
    [post_translation_delete] receiver.

    Python methods run against a database, a cache and a plugin registry.
    They are embedded as computations of a state-and-exception monad over
    an explicit store; every storage and cache operation is also written
    to a log, so that statements about "how often" and "in which order"
    can be made. *)

From stdpp Require Import gmap strings pretty list sorting.

Open Scope Z_scope.

(** ** Python values *)

(** Truth value of a nullable integer attribute ([if self.pk], [not
    self.placeholder_id]): [None] and [0] are false. *)
Definition truthy_id (x : option Z) : bool :=
  match x with
  | Some n => negb (n =? 0)
  | None => false
  end.

(** Truth value of a string: only the empty string is false. *)
Definition truthy_str (s : string) : bool :=
  negb (bool_decide (s = EmptyString)).

(** [x or default] where [x] is a string or [None]. *)
Definition or_else (x : option string) (default : string) : string :=
  match x with
  | Some s => if truthy_str s then s else default
  | None => default
  end.

(** Exceptions that the embedded code raises or lets through. *)
Inductive Exn :=
| AttributeError
| AssertionError
| DatabaseError
| DoesNotExist
| PluginNotFound
| OtherError (name : string).

Global Instance Exn_eq_dec : EqDecision Exn.
Proof. solve_decision. Defined.

(** ** The models *)

Inductive Role := MAIN | SIDEBAR | RELATED.

(** [Placeholder]; [ph_pk] is the implicit [id] column, [None] on an
    instance that was never saved. *)
Record Placeholder := mkPlaceholder {
  ph_pk : option Z;
  slot : string;
  role : Role;
  ph_parent_type_id : option Z;
  ph_parent_id : option Z;
  title : string
}.

(** The Python class of a content item instance: the base class (what a
    [non_polymorphic()] query yields) or the model of some plugin. *)
Inductive ModelClass :=
| ContentItemBase
| PluginModel (name : string).

Global Instance ModelClass_eq_dec : EqDecision ModelClass.
Proof. solve_decision. Defined.

Record ContentItem := mkContentItem {
  pk : option Z;
  class_ : ModelClass;
  polymorphic_ctype_id : option Z;
  parent_type_id : option Z;
  parent_id : option Z;
  language_code : string;
  placeholder_id : option Z;
  sort_order : Z
}.

Definition set_pk (v : option Z) (i : ContentItem) : ContentItem :=
  mkContentItem v (class_ i) (polymorphic_ctype_id i) (parent_type_id i)
    (parent_id i) (language_code i) (placeholder_id i) (sort_order i).

Definition set_language_code (v : string) (i : ContentItem) : ContentItem :=
  mkContentItem (pk i) (class_ i) (polymorphic_ctype_id i) (parent_type_id i)
    (parent_id i) v (placeholder_id i) (sort_order i).

Definition set_placeholder_id (v : option Z) (i : ContentItem) : ContentItem :=
  mkContentItem (pk i) (class_ i) (polymorphic_ctype_id i) (parent_type_id i)
    (parent_id i) (language_code i) v (sort_order i).

(** What calling [get_absolute_url()] on a parent object does: the
    attribute may be missing, the call may return a URL, or the parent's
    own code may raise. *)
Inductive UrlMethod :=
| NoUrlMethod
| UrlReturns (url : string)
| UrlRaises (e : Exn).

(** A parent (owner) object: any model instance.  [po_type_id] is the id
    of its [ContentType], [current_language] the language it resolves to,
    when it resolves one. *)
Record ParentObject := mkParentObject {
  po_type_id : Z;
  po_pk : option Z;
  current_language : option string;
  absolute_url : UrlMethod
}.

(** parler's [set_current_language]: the language is switched on the
    instance, nothing is written. *)
Definition set_current_language (l : string) (o : ParentObject) : ParentObject :=
  mkParentObject (po_type_id o) (po_pk o) (Some l) (absolute_url o).

(** The instance that the [post_translation_delete] signal delivers. *)
Record Translation := mkTranslation {
  master : ParentObject;
  tr_language_code : string
}.

(** A plugin as far as this module uses it. *)
Record ContentPlugin := mkContentPlugin {
  type_name : string;
  get_output_cache_keys : string → ContentItem → list string
}.

(** The two lookups of [plugin_pool] that the [plugin] property uses;
    [None] stands for the lookup error of an unregistered type. *)
Record PluginPool := mkPluginPool {
  _get_plugin_by_content_type : option Z → option ContentPlugin;
  get_plugin_by_model : ModelClass → option ContentPlugin
}.

(** A row of [django_content_type]: [model_class] is what
    [ContentType.model_class()] returns, the model or [None] when the model
    is no longer installed (a stale content type). *)
Record ContentType := mkContentType {
  model_class : option string
}.

(** ** The store *)

Inductive Event :=
| SqlInsert (k : Z)
| SqlUpdate (k : Z)
| SqlDelete (k : Z)
| SqlUpdateMany (ks : list Z)
| SqlDeletePlaceholder (k : Z)
| ClearCache (self : ContentItem)
| CacheDelete (key : string).

Record State := mkState {
  contentitems : gmap Z ContentItem;
  placeholders : gmap Z Placeholder;
  parents : gmap (Z * Z) ParentObject;
  contenttypes : gmap Z ContentType;
  cache : gmap string string;
  log : list Event
}.

Definition with_contentitems (f : gmap Z ContentItem → gmap Z ContentItem)
    (st : State) : State :=
  mkState (f (contentitems st)) (placeholders st) (parents st) (contenttypes st) (cache st) (log st).

Definition with_placeholders (f : gmap Z Placeholder → gmap Z Placeholder)
    (st : State) : State :=
  mkState (contentitems st) (f (placeholders st)) (parents st) (contenttypes st) (cache st) (log st).

Definition with_cache (f : gmap string string → gmap string string)
    (st : State) : State :=
  mkState (contentitems st) (placeholders st) (parents st) (contenttypes st) (f (cache st)) (log st).

Definition with_log (f : list Event → list Event) (st : State) : State :=
  mkState (contentitems st) (placeholders st) (parents st) (contenttypes st) (cache st) (f (log st)).

(** ** The monad of methods *)

Inductive Result (A : Type) :=
| Ok (a : A)
| Raise (e : Exn).
Arguments Ok {A} a.
Arguments Raise {A} e.

Definition M (A : Type) : Type := State → Result A * State.

Global Instance M_ret : MRet M := λ A a st, (Ok a, st).

Global Instance M_bind : MBind M := λ A B f m st,
  match m st with
  | (Ok a, st') => f a st'
  | (Raise e, st') => (Raise e, st')
  end.

Definition raise {A} (e : Exn) : M A := λ st, (Raise e, st).

Definition gets {A} (f : State → A) : M A := λ st, (Ok (f st), st).

Definition modify (f : State → State) : M unit := λ st, (Ok tt, f st).

Definition emit (e : Event) : M unit := modify (with_log (λ l, l ++ [e])).

(** [try: body except e: handler]. *)
Definition try_except {A} (body : M A) (e : Exn) (handler : M A) : M A := λ st,
  match body st with
  | (Raise e', st') => if decide (e' = e) then handler st' else (Raise e', st')
  | r => r
  end.

(** [for x in l: body x]. *)
Fixpoint for_each {A} (l : list A) (body : A → M unit) : M unit :=
  match l with
  | [] => mret tt
  | x :: l' => body x ;; for_each l' body
  end.

Definition lookup_or_raise {A} (o : option A) (e : Exn) : M A :=
  match o with
  | Some a => mret a
  | None => raise e
  end.

(** [exec m st] is the store that running [m] leaves behind, whether it
    returns or raises. *)
Definition exec {A} (m : M A) (st : State) : State := (m st).2.

(** ** Django's part: rows, foreign keys and query sets *)

(** An instance read from the table carries the key of its row. *)
Definition load_item (kv : Z * ContentItem) : ContentItem :=
  set_pk (Some kv.1) kv.2.

(** The key that an INSERT without primary key gets. *)
Definition fresh_pk (rows : gmap Z ContentItem) : Z :=
  1 + foldr Z.max 0 (map_to_list rows).*1.

(** [ContentType.objects.get_for_id]: a content type that has no row
    raises [DoesNotExist]. *)
Definition get_content_type (id : Z) : M ContentType :=
  row ← gets (λ st, contenttypes st !! id);
  lookup_or_raise row DoesNotExist.

(** [ct.get_object_for_this_type(pk=fk)]: a stale content type has no
    model class, and the attribute access on [None] raises
    [AttributeError]; an object that does not exist raises [DoesNotExist]. *)
Definition get_object_for_this_type (id : Z) (ct : ContentType)
    (fk : option Z) : M ParentObject :=
  match model_class ct with
  | None => raise AttributeError
  | Some _ =>
      row ← gets (λ st, fk ≫= λ n, parents st !! (id, n));
      lookup_or_raise row DoesNotExist
  end.

(** Access to a [GenericForeignKey]: without a content type id there is
    no object; the content type is loaded first, outside the guard, and
    only [DoesNotExist] of the object lookup is turned into [None]. *)
Definition GenericForeignKey_get (ct_id fk : option Z) : M (option ParentObject) :=
  if truthy_id ct_id then
    match ct_id with
    | Some id =>
        ct ← get_content_type id;
        try_except
          (rel_obj ← get_object_for_this_type id ct fk; mret (Some rel_obj))
          DoesNotExist
          (mret None)
    | None => mret None
    end
  else mret None.

(** Access to the [placeholder] foreign key of an item. *)
Definition ForeignKey_get_placeholder (fk : option Z) : M (option Placeholder) :=
  match fk with
  | None => mret None
  | Some k =>
      row ← gets (λ st, placeholders st !! k);
      match row with
      | Some p => mret (Some p)
      | None => raise DoesNotExist
      end
  end.

(** A lazy query set is its WHERE clause. *)
Definition QuerySet := ContentItem → bool.

Definition objects_all : QuerySet := λ _, true.

Definition qs_filter (qs : QuerySet) (cond : ContentItem → bool) : QuerySet :=
  λ i, qs i && cond i.

(** [Meta.ordering = ('placeholder', 'sort_order')], NULL first. *)
Definition option_Z_ltb (a b : option Z) : bool :=
  match a, b with
  | None, Some _ => true
  | Some x, Some y => x <? y
  | _, None => false
  end.

Definition item_leb (a b : ContentItem) : bool :=
  option_Z_ltb (placeholder_id a) (placeholder_id b)
  || (bool_decide (placeholder_id a = placeholder_id b)
      && (sort_order a <=? sort_order b)).

Definition item_le (a b : ContentItem) : Prop := Is_true (item_leb a b).

Global Instance item_le_dec a b : Decision (item_le a b).
Proof. unfold item_le. apply _. Defined.

Definition select (qs : QuerySet) (st : State) : list ContentItem :=
  merge_sort item_le
    (filter (λ i, Is_true (qs i)) (load_item <$> map_to_list (contentitems st))).

(** Iterating over a query set runs the query. *)
Definition QuerySet_iter (qs : QuerySet) : M (list ContentItem) :=
  gets (select qs).

(** The keys of the rows a query set matches. *)
Definition matching_keys (qs : QuerySet) (rows : gmap Z ContentItem) : list Z :=
  (filter (λ kv, Is_true (qs (load_item kv))) (map_to_list rows)).*1.

(** [qs.update(placeholder=v)]: one UPDATE statement, no model method is
    called. *)
Definition QuerySet_update_placeholder (qs : QuerySet) (v : option Z) : M unit :=
  rows ← gets contentitems;
  modify (with_contentitems (map_imap (λ k i,
    Some (if qs (load_item (k, i)) then set_placeholder_id v i else i))));;
  emit (SqlUpdateMany (matching_keys qs rows)).

(** [Model.delete] of a content item row; Django clears the primary key
    of the instance afterwards. *)
Definition Model_delete (self : ContentItem) : M ContentItem :=
  match pk self with
  | None => raise AssertionError
  | Some k =>
      modify (with_contentitems (delete k));;
      emit (SqlDelete k);;
      mret (set_pk None self)
  end.

(** [Model.delete] of a placeholder row.  The collector first applies
    [on_delete=SET_NULL] to the items that still point at the row. *)
Definition Placeholder_Model_delete (self : Placeholder) : M unit :=
  match ph_pk self with
  | None => raise AssertionError
  | Some k =>
      let related := qs_filter objects_all
                       (λ i, bool_decide (placeholder_id i = Some k)) in
      rows ← gets contentitems;
      (if bool_decide (matching_keys related rows = [])
       then mret tt
       else QuerySet_update_placeholder related None);;
      modify (with_placeholders (delete k));;
      emit (SqlDeletePlaceholder k)
  end.

(** Modelled from the spec: [get_parent_language_code] lives in
    [fluent_contents.models.managers], which is not among the sources.  It
    is the owner's resolved language; an absent owner resolves none. *)
Definition get_parent_language_code (parent_object : option ParentObject)
    : option string :=
  parent_object ≫= current_language.

(** Modelled from the spec: the query set method [parent] of
    [ContentItemManager], also of [fluent_contents.models.managers].
    Membership is re-derived by matching the owner's type tag and id; with
    [limit_parent_language] the result is also constrained to the owner's
    resolved language (no further constraint when it resolves none). *)
Definition ContentItemQuerySet_parent (qs : QuerySet)
    (parent_object : ParentObject) (limit_parent_language : bool) : QuerySet :=
  qs_filter qs (λ i,
    bool_decide (parent_type_id i = Some (po_type_id parent_object))
    && bool_decide (parent_id i = po_pk parent_object)
    && (if limit_parent_language then
          match get_parent_language_code (Some parent_object) with
          | Some l => bool_decide (language_code i = l)
          | None => true
          end
        else true)).

(** ** fluent_contents/models/db.py *)

Section db.

(** [appsettings.FLUENT_CONTENTS_DEFAULT_LANGUAGE_CODE]. *)
Variable FLUENT_CONTENTS_DEFAULT_LANGUAGE_CODE : string.

(** [extensions.plugin_pool]. *)
Variable plugin_pool : PluginPool.

(** Whether the storage engine takes a row (NOT NULL columns and the
    like); a refused write raises [DatabaseError]. *)
Variable storage_accepts : ContentItem → bool.

(** [Model.save]: UPDATE when the key is set and its row exists, INSERT
    otherwise; an INSERT without key sets the key on the instance.  The
    columns are written as the instance carries them; the polymorphic
    content type is taken as set by the caller. *)
Definition Model_save (self : ContentItem) : M ContentItem :=
  if negb (storage_accepts self) then raise DatabaseError
  else
    rows ← gets contentitems;
    match pk self with
    | Some k =>
        modify (with_contentitems <[k := self]>);;
        emit (if bool_decide (is_Some (rows !! k))
              then SqlUpdate k else SqlInsert k);;
        mret self
    | None =>
        let k := fresh_pk rows in
        let self := set_pk (Some k) self in
        modify (with_contentitems <[k := self]>);;
        emit (SqlInsert k);;
        mret self
    end.

(** *** class Placeholder *)

(** [self.contentitems.all()], the reverse side of the placeholder link,
    of a saved placeholder. *)
Definition Placeholder_contentitems (self : Placeholder) : QuerySet :=
  qs_filter objects_all (λ i, bool_decide (placeholder_id i = ph_pk self)).

(** [parent=None] is the default of the argument; a model instance passed
    for it is true in [if parent:]. *)
Definition Placeholder_get_content_items (self : Placeholder)
    (parent : option ParentObject) (limit_parent_language : bool) : QuerySet :=
  let item_qs := Placeholder_contentitems self in
  match parent with
  | Some parent =>
      ContentItemQuerySet_parent item_qs parent limit_parent_language
  | None =>
      qs_filter item_qs (λ i,
        bool_decide (parent_type_id i = ph_parent_type_id self)
        && bool_decide (parent_id i = ph_parent_id self))
  end.

(** [parent.get_absolute_url()], [parent] possibly being [None]. *)
Definition call_get_absolute_url (parent : option ParentObject)
    : M (option string) :=
  match parent with
  | None => raise AttributeError
  | Some o =>
      match absolute_url o with
      | NoUrlMethod => raise AttributeError
      | UrlReturns u => mret (Some u)
      | UrlRaises e => raise e
      end
  end.

Definition Placeholder_get_absolute_url (self : Placeholder)
    : M (option string) :=
  if negb (truthy_id (ph_parent_id self))
     || negb (truthy_id (ph_parent_type_id self))
  then mret None
  else
    try_except
      (parent ← GenericForeignKey_get (ph_parent_type_id self)
                                      (ph_parent_id self);
       call_get_absolute_url parent)
      AttributeError
      (mret None).

Definition Placeholder_delete (self : Placeholder) : M unit :=
  QuerySet_update_placeholder
    (qs_filter objects_all (λ i, bool_decide (placeholder_id i = ph_pk self)))
    None;;
  Placeholder_Model_delete self.

(** *** class ContentItem *)

(** The [plugin] property. *)
Definition ContentItem_plugin (self : ContentItem) : M ContentPlugin :=
  if bool_decide (class_ self = ContentItemBase) then
    lookup_or_raise
      (_get_plugin_by_content_type plugin_pool (polymorphic_ctype_id self))
      PluginNotFound
  else
    lookup_or_raise (get_plugin_by_model plugin_pool (class_ self))
      PluginNotFound.

Definition ContentItem_get_absolute_url (self : ContentItem)
    : M (option string) :=
  parent ← GenericForeignKey_get (parent_type_id self) (parent_id self);
  try_except (call_get_absolute_url parent) AttributeError (mret None).

Definition ContentItem_get_cache_keys (self : ContentItem) : M (list string) :=
  if negb (truthy_id (placeholder_id self)) then mret []
  else
    placeholder ← ForeignKey_get_placeholder (placeholder_id self);
    placeholder ← lookup_or_raise placeholder AttributeError;
    let placeholder_name := slot placeholder in
    let keys := [] in
    plugin ← ContentItem_plugin self;
    mret (keys ++ get_output_cache_keys plugin placeholder_name self).

Definition cache_delete (cache_key : string) : M unit :=
  modify (with_cache (delete cache_key));;
  emit (CacheDelete cache_key).

Definition ContentItem_clear_cache (self : ContentItem) : M unit :=
  emit (ClearCache self);;
  keys ← ContentItem_get_cache_keys self;
  for_each keys cache_delete.

Definition ContentItem_save (self : ContentItem) : M ContentItem :=
  self ← (if negb (truthy_str (language_code self)) then
            parent ← GenericForeignKey_get (parent_type_id self)
                                            (parent_id self);
            mret (set_language_code
                    (or_else (get_parent_language_code parent)
                             FLUENT_CONTENTS_DEFAULT_LANGUAGE_CODE)
                    self)
          else mret self);
  let is_new := negb (truthy_id (pk self)) in
  self ← Model_save self;
  (if negb is_new then ContentItem_clear_cache self else mret tt);;
  mret self.

Definition ContentItem_delete (self : ContentItem) : M ContentItem :=
  self ← Model_delete self;
  ContentItem_clear_cache self;;
  mret self.

(** *** The receiver of [post_translation_delete] *)

Definition on_delete_model_translation (instance : Translation) : M unit :=
  let translation := instance in
  let parent_object := master translation in
  let parent_object :=
    set_current_language (tr_language_code translation) parent_object in
  items ← QuerySet_iter
            (ContentItemQuerySet_parent objects_all parent_object true);
  for_each items (λ item, ContentItem_delete item ;; mret tt).

End db.

(** *** class ContentItemMetaClass *)

(** Where the [__unicode__] of a class comes from: nowhere, from
    [ContentItem] by inheritance, or from the class itself. *)
Inductive UnicodeMethod := NoUnicode | InheritedUnicode | OwnUnicode.

(** What the metaclass reads and writes of the class that
    [PolymorphicModelBase.__new__] built: [_meta.app_label],
    [_meta.db_table] and the [__unicode__] attribute. *)
Record ModelClassDecl := mkModelClassDecl {
  app_label : string;
  db_table : string;
  unicode_method : UnicodeMethod
}.

Definition set_db_table (v : string) (c : ModelClassDecl) : ModelClassDecl :=
  mkModelClassDecl (app_label c) v (unicode_method c).

(** [s[n:]]. *)
Fixpoint string_drop (n : nat) (s : string) : string :=
  match n, s with
  | O, _ => s
  | S n', String _ s' => string_drop n' s'
  | S _, EmptyString => EmptyString
  end.

(** The outcome of creating a class: the class, or [FieldError] with its
    message. *)
Inductive Created :=
| NewClass (c : ModelClassDecl)
| FieldError (message : string).

Definition ContentItemMetaClass_new (name : string) (new_class : ModelClassDecl)
    : Created :=
  let db_table := db_table new_class in
  let app_label := app_label new_class in
  if bool_decide (name ≠ "ContentItem") then
    let new_class :=
      if String.prefix (app_label +:+ "_") db_table then
        let model_name := string_drop (String.length app_label + 1) db_table in
        set_db_table ("contentitem_" +:+ app_label +:+ "_" +:+ model_name)
          new_class
      else new_class in
    match unicode_method new_class with
    | NoUnicode | InheritedUnicode =>
        FieldError ("The " +:+ name
                    +:+ " class should implement a __unicode__() function.")
    | OwnUnicode => NewClass new_class
    end
  else NewClass new_class.

(** ** Observations on stores, results and logs *)

(** The instances on which [clear_cache] was invoked, oldest first. *)
Definition invalidations (l : list Event) : list ContentItem :=
  omap (λ e, match e with ClearCache i => Some i | _ => None end) l.

(** The rows of content items that were deleted one by one. *)
Definition row_deletes (l : list Event) : list Z :=
  omap (λ e, match e with SqlDelete k => Some k | _ => None end) l.

Definition is_ok {A} (r : Result A) : Prop :=
  match r with Ok _ => True | Raise _ => False end.

Definition ok_or {A} (d : A) (r : Result A) : A :=
  match r with Ok a => a | Raise _ => d end.

Definition void {A} (r : Result A) : Result unit :=
  match r with Ok _ => Ok tt | Raise e => Raise e end.

(** The cache keys of an item as [get_cache_keys] computes them in a
    store. *)
Definition cache_keys_in (plugin_pool : PluginPool) (st : State)
    (self : ContentItem) : Result (list string) :=
  (ContentItem_get_cache_keys plugin_pool self st).1.

Definition drop_keys (keys : list string) (c : gmap string string)
    : gmap string string :=
  foldl (λ c k, delete k c) c keys.

(** The object that a generic reference names when its content type loads:
    none without content type id, without object id, or when no such object
    is stored. *)
Definition generic_lookup (st : State) (ct fk : option Z) : option ParentObject :=
  if truthy_id ct then
    match ct, fk with
    | Some c, Some n => parents st !! (c, n)
    | _, _ => None
    end
  else None.

(** The error that loading a content type for a generic reference runs
    into: [DoesNotExist] for a missing row, [AttributeError] for a stale
    one; none for a reference without content type id. *)
Definition content_type_error (st : State) (ct_id : option Z) : option Exn :=
  if truthy_id ct_id then
    match ct_id ≫= λ id, contenttypes st !! id with
    | None => Some DoesNotExist
    | Some ct =>
        match model_class ct with
        | Some _ => None
        | None => Some AttributeError
        end
    end
  else None.

(** The error that the language fallback of [save] runs into: the owner is
    only resolved for an item without language. *)
Definition fallback_error (st : State) (self : ContentItem) : option Exn :=
  if truthy_str (language_code self) then None
  else content_type_error st (parent_type_id self).

(** The item as [save] hands it to the storage layer. *)
Definition with_language_fallback (default : string) (st : State)
    (self : ContentItem) : ContentItem :=
  if truthy_str (language_code self) then self
  else set_language_code
         (or_else (get_parent_language_code
                     (generic_lookup st (parent_type_id self) (parent_id self)))
                  default)
         self.

(** The owner reference of an item is that of the object [o]. *)
Definition owned_by (o : ParentObject) (i : ContentItem) : Prop :=
  parent_type_id i = Some (po_type_id o) ∧ parent_id i = po_pk o.

Global Instance owned_by_dec o i : Decision (owned_by o i).
Proof. unfold owned_by. apply _. Defined.

Global Instance is_ok_dec {A} (r : Result A) : Decision (is_ok r).
Proof. destruct r; simpl; apply _. Defined.

(** The key of a loaded instance. *)
Definition key_of (item : ContentItem) : Z := default 0 (pk item).

(** The table after the rows of [items] were deleted one by one. *)
Definition delete_rows (items : list ContentItem) (rows : gmap Z ContentItem)
    : gmap Z ContentItem :=
  foldl (λ m item, delete (key_of item) m) rows items.

(** What deleting one item writes to the log. *)
Definition delete_trace (plugin_pool : PluginPool) (st : State)
    (item : ContentItem) : list Event :=
  let gone := set_pk None item in
  SqlDelete (key_of item) :: ClearCache gone
    :: (CacheDelete <$> ok_or [] (cache_keys_in plugin_pool st gone)).

(** The key under which [Model.save] writes an instance. *)
Definition written_key (st : State) (self : ContentItem) : Z :=
  default (fresh_pk (contentitems st)) (pk self).

(** The statement that [Model.save] issues for an instance. *)
Definition write_event (st : State) (self : ContentItem) : Event :=
  match pk self with
  | Some k => if bool_decide (is_Some (contentitems st !! k))
              then SqlUpdate k else SqlInsert k
  | None => SqlInsert (fresh_pk (contentitems st))
  end.

(** The store right after the write of [save], before any invalidation. *)
Definition after_write (default : string) (st : State) (self : ContentItem)
    : State :=
  let k := written_key st self in
  mkState
    (<[k := set_pk (Some k) (with_language_fallback default st self)]>
       (contentitems st))
    (placeholders st) (parents st) (contenttypes st) (cache st)
    (log st ++ [write_event st self]).

(** What the URL helpers make of a resolved owner: only a missing
    attribute is swallowed. *)
Definition url_of_owner (owner : option ParentObject) : Result (option string) :=
  match owner with
  | None => Ok None
  | Some o =>
      match absolute_url o with
      | NoUrlMethod => Ok None
      | UrlReturns u => Ok (Some u)
      | UrlRaises e => if decide (e = AttributeError) then Ok None else Raise e
      end
  end.

(** The query of the [post_translation_delete] receiver. *)
Definition translation_items (instance : Translation) : QuerySet :=
  ContentItemQuerySet_parent objects_all
    (set_current_language (tr_language_code instance) (master instance)) true.

(** A row after the placeholder [p] was detached from it. *)
Definition detach (p : Z) (row : ContentItem) : ContentItem :=
  if decide (placeholder_id row = Some p) then set_placeholder_id None row
  else row.

(** ** A small site, for examples *)

Module Sample.

Definition text_plugin : ContentPlugin :=
  mkContentPlugin "TextPlugin"
    (λ placeholder_name item,
       ["contentitem.@" +:+ placeholder_name +:+ "." +:+ language_code item]).

Definition pool : PluginPool :=
  mkPluginPool
    (λ ct, if decide (ct = Some 7) then Some text_plugin else None)
    (λ c, if decide (c = PluginModel "TextItem") then Some text_plugin else None).

Definition no_plugins : PluginPool := mkPluginPool (λ _, None) (λ _, None).

Definition accepts (i : ContentItem) : bool :=
  bool_decide (is_Some (parent_type_id i)).

Definition page : ParentObject :=
  mkParentObject 3 (Some 1) (Some "fr") (UrlReturns "/page/").

Definition broken_page : ParentObject :=
  mkParentObject 3 (Some 2) None (UrlRaises (OtherError "NoReverseMatch")).

Definition main : Placeholder :=
  mkPlaceholder (Some 1) "main" MAIN (Some 3) (Some 1) "".

Definition sidebar : Placeholder :=
  mkPlaceholder (Some 2) "sidebar" SIDEBAR (Some 3) (Some 1) "".

Definition text_item (k : option Z) (lang : string) (ph : option Z)
    (pos : Z) : ContentItem :=
  mkContentItem k (PluginModel "TextItem") (Some 7) (Some 3) (Some 1)
    lang ph pos.

Definition store : State :=
  mkState
    (<[1 := text_item (Some 1) "en" (Some 1) 1]>
       (<[2 := text_item (Some 2) "fr" (Some 1) 2]>
          (<[3 := text_item (Some 3) "fr" (Some 2) 1]>
             (<[4 := text_item (Some 4) "en" (Some 2) 1]> ∅))))
    (<[1 := main]> (<[2 := sidebar]> ∅))
    (<[(3, 1) := page]> (<[(3, 2) := broken_page]> ∅))
    (<[3 := mkContentType (Some "Page")]> (<[4 := mkContentType None]> ∅))
    (<["contentitem.@main.fr" := "<p>bonjour</p>"]>
       (<["contentitem.@main.en" := "<p>hello</p>"]> ∅))
    [].

(** A store in which a row and a placeholder have the key 0. *)
Definition zero_store : State :=
  mkState
    (<[0 := text_item (Some 0) "en" (Some 0) 1]> ∅)
    (<[0 := mkPlaceholder (Some 0) "main" MAIN (Some 3) (Some 0) ""]> ∅)
    (<[(3, 0) := page]> ∅)
    (<[3 := mkContentType (Some "Page")]> ∅)
    (<["contentitem.@main.en" := "<p>hello</p>"]> ∅)
    [].

Definition new_item : ContentItem := text_item None "" (Some 1) 3.
Definition blanked_item : ContentItem := text_item (Some 1) "" (Some 1) 1.
Definition zero_item : ContentItem := text_item (Some 0) "en" (Some 0) 1.
Definition fr_item : ContentItem := text_item (Some 2) "fr" (Some 1) 2.
Definition orphan_item : ContentItem := text_item (Some 9) "en" None 1.
Definition fr_deleted : Translation :=
  mkTranslation (mkParentObject 3 (Some 1) (Some "en") (UrlReturns "/page/")) "fr".

(** [SharedContentItem] of the sharedcontent plugin, as Django builds it
    before the metaclass looks at it. *)
Definition SharedContentItem : ModelClassDecl :=
  mkModelClassDecl "sharedcontent" "sharedcontent_sharedcontentitem" OwnUnicode.

(** An item saved under a key chosen by the caller. *)
Definition assigned_item : ContentItem := text_item (Some 7) "en" (Some 1) 4.

(** An item whose placeholder row is gone. *)
Definition dangling_item : ContentItem := text_item (Some 5) "en" (Some 77) 1.

(** An item of a plugin that is no longer registered. *)
Definition unknown_item : ContentItem :=
  mkContentItem (Some 1) (PluginModel "GoneItem") (Some 99) (Some 3) (Some 1)
    "fr" (Some 1) 1.

Definition drift_store : State :=
  mkState
    (<[1 := unknown_item]> (<[2 := fr_item]> ∅))
    (placeholders store) (parents store) (contenttypes store) (cache store) [].


(** An item and a placeholder whose owner reference names the stale content
    type 4, the model of which is no longer installed. *)
Definition stale_item : ContentItem :=
  mkContentItem (Some 6) (PluginModel "TextItem") (Some 7) (Some 4) (Some 1)
    "" (Some 1) 3.
Definition stale_placeholder : Placeholder :=
  mkPlaceholder (Some 4) "aside" RELATED (Some 4) (Some 1) "".




End Sample.

(** ** Running methods *)

Ltac unfold_monad :=
  unfold mbind, mret, M_bind, M_ret, raise, gets, modify, emit,
    lookup_or_raise, exec in *.

Ltac run := unfold_monad; simpl in *.

Lemma bind_run {A B} (m : M A) (f : A → M B) (st : State) :
  (m ≫= f) st
  = match m st with
    | (Ok a, st') => f a st'
    | (Raise e, st') => (Raise e, st')
    end.
Proof. done. Qed.

Lemma ret_run {A} (a : A) (st : State) : (mret a : M A) st = (Ok a, st).
Proof. done. Qed.

Section cache_facts.

Variable plugin_pool : PluginPool.

(** [get_cache_keys] only reads. *)
Lemma get_cache_keys_run (self : ContentItem) (st : State) :
  ContentItem_get_cache_keys plugin_pool self st
  = (cache_keys_in plugin_pool st self, st).
Proof.
  unfold cache_keys_in, ContentItem_get_cache_keys, ForeignKey_get_placeholder,
    ContentItem_plugin.
  destruct (truthy_id (placeholder_id self)); run; [|done].
  destruct (placeholder_id self) as [k|]; run; [|done].
  destruct (placeholders st !! k) as [p|]; run; [|done].
  case_bool_decide; run.
  - by destruct (_get_plugin_by_content_type _ _).
  - by destruct (get_plugin_by_model _ _).
Qed.

(** ... and what it reads is the placeholder table. *)
Lemma cache_keys_in_ext (self : ContentItem) (st st' : State) :
  placeholders st = placeholders st' →
  cache_keys_in plugin_pool st self = cache_keys_in plugin_pool st' self.
Proof.
  intros Heq.
  unfold cache_keys_in, ContentItem_get_cache_keys, ForeignKey_get_placeholder,
    ContentItem_plugin.
  destruct (truthy_id (placeholder_id self)); run; [|done].
  destruct (placeholder_id self) as [k|]; run; [|done].
  rewrite <- Heq.
  destruct (placeholders st !! k) as [p|]; run; [|done].
  case_bool_decide; run.
  - by destruct (_get_plugin_by_content_type _ _).
  - by destruct (get_plugin_by_model _ _).
Qed.

Lemma for_each_cache_delete (keys : list string) (st : State) :
  for_each keys cache_delete st
  = (Ok tt, mkState (contentitems st) (placeholders st) (parents st) (contenttypes st)
              (drop_keys keys (cache st))
              (log st ++ (CacheDelete <$> keys))).
Proof.
  revert st. induction keys as [|k keys IH]; intros st.
  - simpl. unfold_monad. rewrite app_nil_r. by destruct st.
  - simpl. unfold cache_delete at 1. run. rewrite IH. simpl.
    by rewrite <- app_assoc.
Qed.

(** The whole effect of [clear_cache]. *)
Lemma clear_cache_run (self : ContentItem) (st : State) :
  let keys := ok_or [] (cache_keys_in plugin_pool st self) in
  ContentItem_clear_cache plugin_pool self st
  = (void (cache_keys_in plugin_pool st self),
     mkState (contentitems st) (placeholders st) (parents st) (contenttypes st)
       (drop_keys keys (cache st))
       (log st ++ ClearCache self :: (CacheDelete <$> keys))).
Proof.
  unfold ContentItem_clear_cache. run.
  rewrite get_cache_keys_run.
  rewrite (cache_keys_in_ext self _ st) by done.
  destruct (cache_keys_in plugin_pool st self) as [keys|e]; simpl.
  - rewrite for_each_cache_delete. simpl. by rewrite <- app_assoc.
  - done.
Qed.

Lemma lookup_drop_keys (keys : list string) (c : gmap string string) (k : string) :
  drop_keys keys c !! k = if decide (k ∈ keys) then None else c !! k.
Proof.
  revert c. induction keys as [|k' keys IH]; intros c.
  - destruct (decide (k ∈ [])) as [Hin|_]; [by apply elem_of_nil in Hin|done].
  - unfold drop_keys in *. simpl. rewrite IH.
    destruct (decide (k ∈ keys)) as [Hin|Hin],
             (decide (k ∈ k' :: keys)) as [Hin'|Hin']; try done.
    + set_solver.
    + apply elem_of_cons in Hin' as [->|?]; [apply lookup_delete_eq|done].
    + apply lookup_delete_ne. set_solver.
Qed.

Lemma drop_keys_idemp (keys : list string) (c : gmap string string) :
  drop_keys keys (drop_keys keys c) = drop_keys keys c.
Proof.
  apply map_eq. intros k. rewrite !lookup_drop_keys. by case_decide.
Qed.

Lemma drop_keys_cold (keys : list string) (c : gmap string string) :
  (∀ k, k ∈ keys → c !! k = None) → drop_keys keys c = c.
Proof.
  intros Hcold. apply map_eq. intros k. rewrite lookup_drop_keys.
  case_decide; [by rewrite Hcold|done].
Qed.

End cache_facts.

(** ** Saving *)

Lemma invalidations_app (l1 l2 : list Event) :
  invalidations (l1 ++ l2) = invalidations l1 ++ invalidations l2.
Proof. apply omap_app. Qed.

Lemma invalidations_cache_deletes (keys : list string) :
  invalidations (CacheDelete <$> keys) = [].
Proof. by induction keys. Qed.

Lemma invalidations_write_event (st : State) (self : ContentItem) (l : list Event) :
  invalidations (write_event st self :: l) = invalidations l.
Proof.
  unfold write_event. destruct (pk self); [case_bool_decide|]; done.
Qed.


Lemma truthy_str_false (s : string) : truthy_str s = false ↔ s = "".
Proof.
  unfold truthy_str. case_bool_decide; simpl; split; congruence.
Qed.




(** What an access to a generic foreign key comes to. *)
Lemma GenericForeignKey_get_run (ct_id fk : option Z) (st : State) :
  GenericForeignKey_get ct_id fk st
  = (match content_type_error st ct_id with
     | Some e => Raise e
     | None => Ok (generic_lookup st ct_id fk)
     end, st).
Proof.
  unfold GenericForeignKey_get, content_type_error, generic_lookup.
  destruct ct_id as [id|]; [|reflexivity]. simpl.
  destruct (negb (id =? 0)); [|reflexivity].
  unfold get_content_type. rewrite !bind_run. unfold gets at 1.
  destruct (contenttypes st !! id) as [ct|]; simpl; [|done].
  unfold try_except, get_object_for_this_type.
  destruct (model_class ct); [|done].
  rewrite !bind_run. unfold gets at 1.
  destruct fk as [n|]; simpl; [|done].
  by destruct (parents st !! (id, n)).
Qed.

Section save_facts.

Variable default_language : string.
Variable plugin_pool : PluginPool.
Variable storage_accepts : ContentItem → bool.

Local Abbreviation save := (ContentItem_save default_language plugin_pool storage_accepts).

Lemma set_pk_id (self : ContentItem) (k : Z) :
  pk self = Some k → set_pk (Some k) self = self.
Proof. destruct self; simpl; by intros ->. Qed.

Lemma pk_with_language_fallback (st : State) (self : ContentItem) :
  pk (with_language_fallback default_language st self) = pk self.
Proof. unfold with_language_fallback. by destruct (truthy_str _). Qed.

(** [save], step by step: language fallback, which resolves the owner and
    may raise; write; and invalidation when the key was set and true before
    the write. *)
Lemma save_run (self : ContentItem) (st : State) :
  let self1 := with_language_fallback default_language st self in
  let self2 := set_pk (Some (written_key st self)) self1 in
  let st1 := after_write default_language st self in
  save self st =
    match fallback_error st self with
    | Some e => (Raise e, st)
    | None =>
        if storage_accepts self1 then
          if truthy_id (pk self) then
            (match cache_keys_in plugin_pool st1 self2 with
             | Ok _ => Ok self2
             | Raise e => Raise e
             end,
             exec (ContentItem_clear_cache plugin_pool self2) st1)
          else (Ok self2, st1)
        else (Raise DatabaseError, st)
    end.
Proof.
  intros self1 self2 st1.
  unfold ContentItem_save. rewrite bind_run.
  assert (Hfirst :
    (if negb (truthy_str (language_code self))
     then GenericForeignKey_get (parent_type_id self) (parent_id self)
          ≫= λ parent,
               mret (set_language_code
                       (or_else (get_parent_language_code parent)
                          default_language) self)
     else mret self) st
    = (match fallback_error st self with
       | Some e => Raise e
       | None => Ok self1
       end, st)).
  { subst self1. unfold fallback_error, with_language_fallback.
    destruct (truthy_str (language_code self)); simpl; [done|].
    rewrite bind_run, GenericForeignKey_get_run.
    by destruct (content_type_error st (parent_type_id self)). }
  rewrite Hfirst. destruct (fallback_error st self); [done|].
  assert (Hpk : pk self1 = pk self) by apply pk_with_language_fallback.
  unfold Model_save. subst self2 st1. unfold after_write, written_key, write_event.
  change (with_language_fallback default_language st self) with self1.
  rewrite !Hpk.
  destruct (storage_accepts self1); [|done]. simpl.
  destruct (pk self) as [k|] eqn:Hk; run.
  - rewrite (set_pk_id self1 k Hpk).
    destruct (k =? 0); simpl; [done|].
    unfold with_log, with_contentitems; simpl. rewrite clear_cache_run. simpl.
    by destruct (cache_keys_in _ _ _).
  - done.
Qed.

(** The rows after [save], when the fallback does not raise and the
    storage layer takes the row. *)
Lemma save_contentitems (self : ContentItem) (st : State) :
  fallback_error st self = None →
  storage_accepts (with_language_fallback default_language st self) = true →
  contentitems (exec (save self) st)
  = contentitems (after_write default_language st self).
Proof.
  intros Hres Hacc. unfold exec at 1. rewrite save_run, Hres, Hacc.
  destruct (truthy_id (pk self)); [|done]. simpl.
  unfold exec. by rewrite clear_cache_run.
Qed.

Lemma save_ok_inv (self self' : ContentItem) (st st' : State) :
  save self st = (Ok self', st') →
  fallback_error st self = None
  ∧ storage_accepts (with_language_fallback default_language st self) = true
  ∧ self' = set_pk (Some (written_key st self))
              (with_language_fallback default_language st self)
  ∧ contentitems st' = contentitems (after_write default_language st self).
Proof.
  intros Hsave.
  assert (Hst : st' = exec (save self) st) by (unfold exec; by rewrite Hsave).
  rewrite save_run in Hsave.
  destruct (fallback_error st self) eqn:Hres; [done|]. split; [done|].
  destruct (storage_accepts _) eqn:Hacc; [|done].
  split; [done|]. split.
  - destruct (truthy_id (pk self)).
    + destruct (cache_keys_in _ _ _); congruence.
    + congruence.
  - subst st'. by apply save_contentitems.
Qed.

(** The log of [save]: nothing when the fallback raises or the write is
    refused; otherwise the write, followed by the invalidation when the key
    was set and true. *)
Lemma save_log (self : ContentItem) (st : State) :
  let st' := exec (save self) st in
  let row := with_language_fallback default_language st self in
  let saved := set_pk (Some (written_key st self)) row in
  let keys := ok_or [] (cache_keys_in plugin_pool
                          (after_write default_language st self) saved) in
  log st'
  = log st
      ++ (if bool_decide (fallback_error st self = None) && storage_accepts row
          then
            write_event st self
              :: (if truthy_id (pk self)
                  then ClearCache saved :: (CacheDelete <$> keys)
                  else [])
          else []).
Proof.
  intros st' row saved keys. subst st'. unfold exec at 1.
  rewrite save_run. fold row. fold saved.
  destruct (fallback_error st self); simpl; [by rewrite app_nil_r|].
  destruct (storage_accepts row); simpl; [|by rewrite app_nil_r].
  destruct (truthy_id (pk self)); simpl; [|done].
  unfold exec. rewrite clear_cache_run. simpl. fold keys.
  by rewrite <- !app_assoc.
Qed.

(** C1 (amended).  [save] does not invoke cache invalidation for an
    instance without primary key (a new record) nor for one whose key is
    0; a refused write leaves the log as it was, and a save that raises
    while resolving the owner leaves the whole store as it was.  For an
    instance whose primary key is set and not 0, whose language fallback
    does not raise and whose write is accepted, [save] invokes the
    invalidation exactly once, on the row just written, and the log shows
    the order: the write first, then [clear_cache] and its cache
    deletions. *)
Theorem save_invalidation (self : ContentItem) (st : State) :
  let st' := exec (save self) st in
  let row := with_language_fallback default_language st self in
  (pk self = None ∨ pk self = Some 0 →
     invalidations (log st') = invalidations (log st))
  ∧ (storage_accepts row = false → log st' = log st)
  ∧ (∀ e, fallback_error st self = Some e → st' = st)
  ∧ (∀ k, pk self = Some k → k ≠ 0 →
       fallback_error st self = None → storage_accepts row = true →
       contentitems st' !! k = Some row
       ∧ invalidations (log st') = invalidations (log st) ++ [row]
       ∧ ∃ deletions,
           log st' = log st ++ write_event st self :: ClearCache row :: deletions
           ∧ invalidations deletions = []).
Proof.
  intros st' row. pose proof (save_log self st) as Hlog. simpl in Hlog.
  fold st' row in Hlog. split; [|split; [|split]].
  - intros Hnew. rewrite Hlog.
    assert (truthy_id (pk self) = false) as ->
      by (by destruct Hnew as [-> | ->]).
    destruct (_ && _); [|by rewrite app_nil_r].
    by rewrite invalidations_app, invalidations_write_event, app_nil_r.
  - intros Hrefused. rewrite Hlog, Hrefused, andb_false_r. apply app_nil_r.
  - intros e He. subst st'. unfold exec. by rewrite save_run, He.
  - intros k Hk Hk0 Hres Hacc.
    assert (Hsaved : set_pk (Some (written_key st self)) row = row).
    { apply set_pk_id. unfold written_key. rewrite Hk. simpl.
      subst row. by rewrite pk_with_language_fallback. }
    rewrite Hsaved in Hlog. rewrite Hk, Hacc, Hres in Hlog.
    assert ((k =? 0) = false) as Hz by lia.
    simpl in Hlog. rewrite Hz in Hlog. simpl in Hlog.
    split; [|split].
    + subst st' row. rewrite save_contentitems by done.
      unfold after_write, written_key. rewrite Hk. simpl.
      rewrite lookup_insert_eq. f_equal. apply set_pk_id.
      by rewrite pk_with_language_fallback.
    + rewrite Hlog, invalidations_app, invalidations_write_event. simpl.
      by rewrite invalidations_cache_deletes.
    + eexists. split; [exact Hlog|apply invalidations_cache_deletes].
Qed.



End save_facts.

(** ** Cache keys and invalidation *)

Section cache_claims.

Variable plugin_pool : PluginPool.

(** C6.  Cache invalidation is idempotent.  [clear_cache] removes every
    key of the item's computed key set from the cache and touches no other
    key; a second run computes the same key set and leaves the cache as
    the first run left it, and a run on a cache in which the keys are
    already absent changes nothing.  After either run every key of the set
    is absent. *)
Theorem clear_cache_idempotent (self : ContentItem) (st : State) :
  let keys := ok_or [] (cache_keys_in plugin_pool st self) in
  let once := exec (ContentItem_clear_cache plugin_pool self) st in
  let twice := exec (ContentItem_clear_cache plugin_pool self) once in
  cache_keys_in plugin_pool once self = cache_keys_in plugin_pool st self
  ∧ cache twice = cache once
  ∧ (∀ k, k ∈ keys → cache once !! k = None ∧ cache twice !! k = None)
  ∧ (∀ k, k ∉ keys → cache once !! k = cache st !! k)
  ∧ ((∀ k, k ∈ keys → cache st !! k = None) → cache once = cache st).
Proof.
  intros keys once twice.
  assert (Hkeys : cache_keys_in plugin_pool once self
                  = cache_keys_in plugin_pool st self).
  { apply cache_keys_in_ext. subst once. unfold exec.
    by rewrite clear_cache_run. }
  assert (Honce : cache once = drop_keys keys (cache st)).
  { subst once. unfold exec. by rewrite clear_cache_run. }
  assert (Htwice : cache twice = drop_keys keys (cache once)).
  { subst twice. unfold exec. rewrite clear_cache_run. simpl.
    by rewrite Hkeys. }
  split; [done|]. split.
  { rewrite Htwice, Honce. apply drop_keys_idemp. }
  split; [|split].
  - intros k Hk. rewrite Htwice, Honce, !lookup_drop_keys.
    by destruct (decide (k ∈ keys)).
  - intros k Hk. rewrite Honce, lookup_drop_keys.
    by destruct (decide (k ∈ keys)).
  - intros Hcold. rewrite Honce. by apply drop_keys_cold.
Qed.

(** C7 (amended).  For an item whose placeholder link is null (or 0) the
    key set is empty, returned as a normal result whatever the plugin
    registry holds, so the handler is not consulted; for an item whose link
    is set and not 0, whose placeholder row exists and whose plugin is
    registered, the keys are those the plugin handler returns for the
    placeholder's slot and the item. *)
Theorem get_cache_keys_cases (self : ContentItem) (st : State) :
  (placeholder_id self = None ∨ placeholder_id self = Some 0 →
   ∀ any_pool : PluginPool,
     ContentItem_get_cache_keys any_pool self st = (Ok [], st))
  ∧ (∀ k placeholder plugin,
       placeholder_id self = Some k → k ≠ 0 →
       placeholders st !! k = Some placeholder →
       (ContentItem_plugin plugin_pool self st).1 = Ok plugin →
       ContentItem_get_cache_keys plugin_pool self st
       = (Ok (get_output_cache_keys plugin (slot placeholder) self), st)).
Proof.
  split.
  - intros Hnull any_pool. unfold ContentItem_get_cache_keys.
    by destruct Hnull as [-> | ->].
  - intros k placeholder plugin Hk Hk0 Hph Hplugin.
    unfold ContentItem_get_cache_keys, ForeignKey_get_placeholder.
    rewrite Hk. simpl.
    assert ((k =? 0) = false) as -> by lia. run. rewrite Hph. simpl.
    unfold ContentItem_plugin in *.
    case_bool_decide; run.
    + destruct (_get_plugin_by_content_type _ _); simpl in *; congruence.
    + destruct (get_plugin_by_model _ _); simpl in *; congruence.
Qed.

End cache_claims.

(** ** Resolving the URL of the owner *)

Lemma call_get_absolute_url_run (owner : option ParentObject) (st : State) :
  try_except (call_get_absolute_url owner) AttributeError (mret None) st
  = (url_of_owner owner, st).
Proof.
  unfold try_except, call_get_absolute_url, url_of_owner.
  destruct owner as [o|]; run; [|done].
  destruct (absolute_url o) as [|u|e]; run; try done.
  by destruct (decide (e = AttributeError)).
Qed.

Lemma ContentItem_get_absolute_url_run (self : ContentItem) (st : State) :
  ContentItem_get_absolute_url self st
  = (match content_type_error st (parent_type_id self) with
     | Some e => Raise e
     | None =>
         url_of_owner (generic_lookup st (parent_type_id self) (parent_id self))
     end, st).
Proof.
  unfold ContentItem_get_absolute_url.
  rewrite bind_run, GenericForeignKey_get_run.
  destruct (content_type_error st (parent_type_id self)); [done|].
  apply call_get_absolute_url_run.
Qed.

Lemma Placeholder_get_absolute_url_run (self : Placeholder) (st : State) :
  Placeholder_get_absolute_url self st
  = (if truthy_id (ph_parent_id self) && truthy_id (ph_parent_type_id self)
     then
       match content_type_error st (ph_parent_type_id self) with
       | Some e => if decide (e = AttributeError) then Ok None else Raise e
       | None =>
           url_of_owner
             (generic_lookup st (ph_parent_type_id self) (ph_parent_id self))
       end
     else Ok None, st).
Proof.
  unfold Placeholder_get_absolute_url.
  destruct (truthy_id (ph_parent_id self)); simpl; [|done].
  destruct (truthy_id (ph_parent_type_id self)); simpl; [|done].
  unfold try_except. rewrite bind_run, GenericForeignKey_get_run.
  destruct (content_type_error st (ph_parent_type_id self)) as [e|].
  - by destruct (decide (e = AttributeError)).
  - pose proof (call_get_absolute_url_run
      (generic_lookup st (ph_parent_type_id self) (ph_parent_id self)) st) as H.
    unfold try_except in H. apply H.
Qed.

(** A reference without content type id runs into no content type error
    and names no object. *)
Lemma content_type_error_truthy (st : State) (ct : option Z) (e : Exn) :
  content_type_error st ct = Some e → truthy_id ct = true.
Proof. unfold content_type_error. by destruct (truthy_id ct). Qed.





(** ** Query sets *)

Lemma load_item_fields (k : Z) (row : ContentItem) :
  placeholder_id (load_item (k, row)) = placeholder_id row
  ∧ parent_type_id (load_item (k, row)) = parent_type_id row
  ∧ parent_id (load_item (k, row)) = parent_id row
  ∧ language_code (load_item (k, row)) = language_code row
  ∧ pk (load_item (k, row)) = Some k.
Proof. done. Qed.

(** The rows that a query yields: those of the table that satisfy the
    WHERE clause. *)
Lemma elem_of_select (qs : QuerySet) (st : State) (item : ContentItem) :
  item ∈ select qs st
  ↔ qs item = true
    ∧ ∃ k row, contentitems st !! k = Some row ∧ item = load_item (k, row).
Proof.
  unfold select. rewrite merge_sort_Permutation.
  rewrite list_elem_of_filter, list_elem_of_fmap. split.
  - intros [Hqs ([k row] & -> & Hin)]. apply elem_of_map_to_list in Hin.
    split; [by apply Is_true_true|]. by exists k, row.
  - intros [Hqs (k & row & Hrow & ->)]. split; [by apply Is_true_true|].
    exists (k, row). split; [done|]. by apply elem_of_map_to_list.
Qed.

Lemma filter_ext_elem_of {A} (P Q : A → Prop) `{∀ x, Decision (P x)}
    `{∀ x, Decision (Q x)} (l : list A) :
  (∀ x, x ∈ l → (P x ↔ Q x)) → filter P l = filter Q l.
Proof.
  induction l as [|x l IH]; intros Hext; [done|].
  rewrite !filter_cons.
  rewrite IH by (intros y Hy; apply Hext; by right).
  destruct (decide (P x)) as [HP|HP], (decide (Q x)) as [HQ|HQ]; try done.
  - destruct HQ. apply Hext; [by left|done].
  - destruct HP. apply Hext; [by left|done].
Qed.

(** Two WHERE clauses that agree on the rows of the table select the
    same rows, in the same order. *)
Lemma select_ext (qs1 qs2 : QuerySet) (st : State) :
  (∀ k row, contentitems st !! k = Some row →
     qs1 (load_item (k, row)) = qs2 (load_item (k, row))) →
  select qs1 st = select qs2 st.
Proof.
  intros Hext. unfold select. f_equal. apply filter_ext_elem_of.
  intros item Hin. apply list_elem_of_fmap in Hin as ([k row] & -> & Hin).
  apply elem_of_map_to_list in Hin. by rewrite (Hext k row Hin).
Qed.

(** C9.  Without an owner argument, [get_content_items] yields exactly the
    rows that are linked to the placeholder and whose stored owner reference
    (type tag and id) equals the placeholder's own; a row linked to the
    placeholder with another owner reference is left out. *)
Theorem unfiltered_matches_own_owner (self : Placeholder)
    (limit_parent_language : bool) (st : State) (item : ContentItem) :
  item ∈ select (Placeholder_get_content_items self None limit_parent_language) st
  ↔ (∃ k row, contentitems st !! k = Some row ∧ item = load_item (k, row))
    ∧ placeholder_id item = ph_pk self
    ∧ parent_type_id item = ph_parent_type_id self
    ∧ parent_id item = ph_parent_id self.
Proof.
  rewrite elem_of_select.
  unfold Placeholder_get_content_items, Placeholder_contentitems, qs_filter,
    objects_all. simpl.
  rewrite !andb_true_iff, !bool_decide_eq_true. tauto.
Qed.

(** C4.  For a placeholder whose stored owner reference is that of [owner],
    in a store where every row linked to the placeholder carries that
    owner's type tag and id, the unfiltered query and the query filtered by
    [owner] without the language limit return the same rows, hence the same
    ids; both return all rows linked to the placeholder. *)
Theorem filtered_agrees_with_unfiltered (self : Placeholder)
    (owner : ParentObject) (st : State) :
  ph_parent_type_id self = Some (po_type_id owner) →
  ph_parent_id self = po_pk owner →
  (∀ k row, contentitems st !! k = Some row →
     placeholder_id row = ph_pk self → owned_by owner row) →
  let unfiltered := select (Placeholder_get_content_items self None true) st in
  let filtered :=
    select (Placeholder_get_content_items self (Some owner) false) st in
  pk <$> unfiltered = pk <$> filtered
  ∧ unfiltered = filtered
  ∧ unfiltered = select (Placeholder_contentitems self) st.
Proof.
  intros Htype Hid Hsound unfiltered filtered.
  assert (Hsame : unfiltered = filtered).
  { apply select_ext. intros k row Hrow.
    unfold Placeholder_get_content_items, ContentItemQuerySet_parent, qs_filter.
    simpl. by rewrite Htype, Hid, andb_true_r. }
  split; [by rewrite Hsame|]. split; [done|].
  apply select_ext. intros k row Hrow.
  unfold Placeholder_get_content_items, Placeholder_contentitems, qs_filter,
    objects_all. simpl.
  case_bool_decide as Hlinked; simpl; [|done].
  destruct (Hsound k row Hrow Hlinked) as [Ht Hi].
  rewrite Htype, Hid. by rewrite !bool_decide_eq_true_2.
Qed.

(** ** Deleting a placeholder *)

Lemma QuerySet_update_placeholder_run (qs : QuerySet) (v : option Z) (st : State) :
  QuerySet_update_placeholder qs v st
  = (Ok tt,
     mkState
       (map_imap (λ k i, Some (if qs (load_item (k, i))
                               then set_placeholder_id v i else i))
          (contentitems st))
       (placeholders st) (parents st) (contenttypes st) (cache st)
       (log st ++ [SqlUpdateMany (matching_keys qs (contentitems st))])).
Proof. done. Qed.

Lemma matching_keys_nil (qs : QuerySet) (rows : gmap Z ContentItem) :
  (∀ k row, rows !! k = Some row → qs (load_item (k, row)) = false) →
  matching_keys qs rows = [].
Proof.
  intros Hnone. unfold matching_keys.
  destruct (filter _ (map_to_list rows)) as [|[k row] l] eqn:Hfilter; [done|].
  assert (Hin : (k, row) ∈ filter (λ kv, Is_true (qs (load_item kv)))
                              (map_to_list rows))
    by (rewrite Hfilter; by left).
  apply list_elem_of_filter in Hin as [Hqs Hin].
  apply elem_of_map_to_list in Hin. rewrite (Hnone k row Hin) in Hqs.
  by destruct Hqs.
Qed.

(** C2.  Deleting a persisted placeholder first clears the placeholder link
    of every item row that points at it, in one UPDATE, and then removes the
    placeholder's row.  Every item row stays in the table; a row that was
    linked differs from before in its placeholder link only, any other row
    is unchanged.  No item row is deleted and no invalidation runs. *)
Theorem placeholder_delete_detaches (self : Placeholder) (p : Z) (st : State) :
  ph_pk self = Some p →
  ∃ st',
    Placeholder_delete self st = (Ok tt, st')
    ∧ placeholders st' = delete p (placeholders st)
    ∧ (∀ k, contentitems st' !! k = detach p <$> contentitems st !! k)
    ∧ (∀ k row, contentitems st !! k = Some row → placeholder_id row = Some p →
         contentitems st' !! k = Some (set_placeholder_id None row))
    ∧ (∀ k row, contentitems st !! k = Some row → placeholder_id row ≠ Some p →
         contentitems st' !! k = Some row)
    ∧ log st'
      = log st
          ++ [SqlUpdateMany
                (matching_keys
                   (qs_filter objects_all
                      (λ i, bool_decide (placeholder_id i = Some p)))
                   (contentitems st));
              SqlDeletePlaceholder p]
    ∧ row_deletes (log st') = row_deletes (log st)
    ∧ invalidations (log st') = invalidations (log st)
    ∧ cache st' = cache st
    ∧ parents st' = parents st.
Proof.
  intros Hpk.
  set (rows1 := map_imap (λ k i, Some (if qs_filter objects_all
                   (λ i, bool_decide (placeholder_id i = Some p))
                   (load_item (k, i))
                 then set_placeholder_id None i else i)) (contentitems st)).
  assert (Hrows1 : ∀ k, rows1 !! k = detach p <$> contentitems st !! k).
  { intros k. subst rows1. rewrite map_lookup_imap.
    destruct (contentitems st !! k) as [row|]; [|done]. simpl.
    unfold qs_filter, objects_all, detach. simpl.
    by destruct (decide (placeholder_id row = Some p));
      [rewrite bool_decide_eq_true_2|rewrite bool_decide_eq_false_2]. }
  assert (Hnone : matching_keys
            (qs_filter objects_all (λ i, bool_decide (placeholder_id i = Some p)))
            rows1 = []).
  { apply matching_keys_nil. intros k row Hrow.
    rewrite Hrows1 in Hrow.
    destruct (contentitems st !! k) as [row0|]; [|done].
    simpl in Hrow. injection Hrow as <-.
    unfold qs_filter, objects_all, detach. simpl.
    apply bool_decide_eq_false_2.
    by destruct (decide (placeholder_id row0 = Some p)). }
  eexists. split.
  { unfold Placeholder_delete, Placeholder_Model_delete. rewrite Hpk.
    unfold mbind, M_bind at 1. rewrite QuerySet_update_placeholder_run.
    fold rows1. run. rewrite Hnone. simpl. reflexivity. }
  simpl. split; [done|]. split; [done|].
  split; [|split].
  - intros k row Hrow Hlinked. rewrite Hrows1, Hrow. simpl.
    unfold detach. by rewrite decide_True.
  - intros k row Hrow Hlinked. rewrite Hrows1, Hrow. simpl.
    unfold detach. by rewrite decide_False.
  - rewrite <- app_assoc. simpl. split; [done|].
    unfold row_deletes, invalidations. rewrite !omap_app. simpl.
    by rewrite !app_nil_r.
Qed.

(** ** Deleting a translation *)

Lemma lookup_delete_rows (items : list ContentItem) (rows : gmap Z ContentItem)
    (k : Z) :
  delete_rows items rows !! k
  = if decide (k ∈ key_of <$> items) then None else rows !! k.
Proof.
  revert rows. induction items as [|item items IH]; intros rows.
  - destruct (decide (k ∈ key_of <$> [])) as [Hin|_];
      [by apply elem_of_nil in Hin|done].
  - unfold delete_rows in *. rewrite fmap_cons. cbn [foldl]. rewrite IH.
    destruct (decide (k ∈ key_of <$> items)) as [Hin|Hin],
             (decide (k ∈ key_of item :: (key_of <$> items))) as [Hin'|Hin'];
      try done.
    + destruct Hin'. apply elem_of_cons. by right.
    + apply elem_of_cons in Hin' as [Heq|?]; [|done].
      rewrite Heq. apply lookup_delete_eq.
    + apply lookup_delete_ne. intros Heq. apply Hin', elem_of_cons. by left.
Qed.

Lemma drop_keys_app (ks1 ks2 : list string) (c : gmap string string) :
  drop_keys (ks1 ++ ks2) c = drop_keys ks2 (drop_keys ks1 c).
Proof. apply foldl_app. Qed.

Section translation_delete.

Variable plugin_pool : PluginPool.

Lemma delete_trace_ext (st st' : State) (item : ContentItem) :
  placeholders st = placeholders st' →
  delete_trace plugin_pool st item = delete_trace plugin_pool st' item.
Proof.
  intros Heq. unfold delete_trace.
  by rewrite (cache_keys_in_ext plugin_pool _ st st' Heq).
Qed.

(** One pass of the loop body. *)
Lemma ContentItem_delete_run (item : ContentItem) (k : Z) (st : State) :
  pk item = Some k →
  let gone := set_pk None item in
  let keys := ok_or [] (cache_keys_in plugin_pool st gone) in
  ContentItem_delete plugin_pool item st
  = (match cache_keys_in plugin_pool st gone with
     | Ok _ => Ok gone
     | Raise e => Raise e
     end,
     mkState (delete k (contentitems st)) (placeholders st) (parents st) (contenttypes st)
       (drop_keys keys (cache st))
       (log st ++ delete_trace plugin_pool st item)).
Proof.
  intros Hpk gone keys.
  unfold ContentItem_delete, Model_delete. rewrite Hpk. run.
  unfold with_log, with_contentitems. simpl.
  rewrite clear_cache_run. simpl.
  unfold delete_trace, key_of. rewrite Hpk. simpl. fold gone.
  rewrite (cache_keys_in_ext plugin_pool gone _ st) by done.
  fold keys. rewrite <- app_assoc. simpl.
  by destruct (cache_keys_in plugin_pool st gone).
Qed.

(** The loop of the receiver, when every invalidation goes through. *)
Lemma delete_loop_run (st0 : State) (items : list ContentItem) (st : State) :
  placeholders st = placeholders st0 →
  (∀ item, item ∈ items →
     is_Some (pk item)
     ∧ is_ok (cache_keys_in plugin_pool st0 (set_pk None item))) →
  for_each items (λ item, ContentItem_delete plugin_pool item ;; mret tt) st
  = (Ok tt,
     mkState (delete_rows items (contentitems st)) (placeholders st) (parents st) (contenttypes st)
       (drop_keys
          (items ≫= λ item,
             ok_or [] (cache_keys_in plugin_pool st0 (set_pk None item)))
          (cache st))
       (log st ++ (items ≫= delete_trace plugin_pool st0))).
Proof.
  revert st. induction items as [|item items IH]; intros st Hph Hok.
  - simpl. unfold mret, M_ret. rewrite app_nil_r. by destruct st.
  - destruct (Hok item) as [[k Hk] Hkeys]; [by left|].
    rewrite !bind_cons. cbn [for_each]. rewrite !bind_run.
    rewrite (ContentItem_delete_run item k st Hk).
    rewrite (cache_keys_in_ext plugin_pool _ st st0 Hph).
    rewrite (delete_trace_ext st st0 item Hph).
    destruct (cache_keys_in plugin_pool st0 (set_pk None item)) as [keys|e];
      [|done].
    cbn [ok_or]. rewrite ret_run. rewrite IH; [|done|intros i Hi; apply Hok; by right].
    cbn [contentitems placeholders parents cache log].
    rewrite drop_keys_app, <- !app_assoc.
    unfold delete_rows, key_of. cbn [foldl]. by rewrite Hk.
Qed.

Lemma row_deletes_delete_trace (st : State) (items : list ContentItem) :
  row_deletes (items ≫= delete_trace plugin_pool st) = key_of <$> items.
Proof.
  induction items as [|item items IH]; [done|].
  rewrite bind_cons. unfold row_deletes in *. rewrite omap_app, IH.
  rewrite fmap_cons. unfold delete_trace. cbn [omap app]. f_equal.
  by induction (ok_or [] _).
Qed.

Lemma invalidations_delete_trace (st : State) (items : list ContentItem) :
  invalidations (items ≫= delete_trace plugin_pool st) = set_pk None <$> items.
Proof.
  induction items as [|item items IH]; [done|].
  rewrite bind_cons, invalidations_app, IH.
  rewrite fmap_cons. unfold delete_trace. simpl.
  by rewrite invalidations_cache_deletes.
Qed.

Lemma NoDup_select_keys (qs : QuerySet) (st : State) :
  NoDup (key_of <$> select qs st).
Proof.
  unfold select. rewrite merge_sort_Permutation.
  eapply sublist_NoDup; [|apply fmap_sublist, sublist_filter].
  rewrite <- list_fmap_compose.
  apply (NoDup_fst_map_to_list (contentitems st)).
Qed.

(** C5 (amended).  Provided that the cache keys of every item row whose
    owner reference is [P]'s and whose language is [L] can be computed once
    its primary key is cleared (its placeholder row exists and its plugin is
    registered), handling the deletion of the translation of parent [P] in
    language [L] returns and deletes exactly those rows: the loop visits
    each of them once, deletes its row by its own DELETE and then runs
    [clear_cache] on it, so the invalidation fires once per removed item,
    and the cache keys computed for each removed instance are absent from
    the cache afterwards, every other cache entry being left as it was.
    Rows in other languages or of other owners stay as they are, and so do
    all placeholders. *)
Theorem translation_delete_scoped (instance : Translation) (st : State) :
  let P := master instance in
  let L := tr_language_code instance in
  let scoped (row : ContentItem) := owned_by P row ∧ language_code row = L in
  let keys_of (item : ContentItem) :=
    ok_or [] (cache_keys_in plugin_pool st (set_pk None item)) in
  (∀ k row, contentitems st !! k = Some row → scoped row →
     is_ok (cache_keys_in plugin_pool st (set_pk None row))) →
  ∃ items st',
    on_delete_model_translation plugin_pool instance st = (Ok tt, st')
    ∧ (∀ item, item ∈ items
         ↔ ∃ k row, contentitems st !! k = Some row ∧ scoped row
                    ∧ item = load_item (k, row))
    ∧ NoDup (key_of <$> items)
    ∧ (∀ k row, contentitems st !! k = Some row → scoped row →
         contentitems st' !! k = None)
    ∧ (∀ k row, contentitems st !! k = Some row → ¬ scoped row →
         contentitems st' !! k = Some row)
    ∧ (∀ k, contentitems st !! k = None → contentitems st' !! k = None)
    ∧ placeholders st' = placeholders st
    ∧ parents st' = parents st
    ∧ log st' = log st ++ (items ≫= delete_trace plugin_pool st)
    ∧ row_deletes (log st') = row_deletes (log st) ++ (key_of <$> items)
    ∧ invalidations (log st')
      = invalidations (log st) ++ (set_pk None <$> items)
    ∧ (∀ item key, item ∈ items → key ∈ keys_of item →
         cache st' !! key = None)
    ∧ (∀ key, (∀ item, item ∈ items → key ∉ keys_of item) →
         cache st' !! key = cache st !! key).
Proof.
  intros P L scoped keys_of Hkeys.
  set (qs := ContentItemQuerySet_parent objects_all
               (set_current_language L P) true).
  assert (Hqs : ∀ item, qs item = true ↔ scoped item).
  { intros item. subst qs scoped.
    unfold ContentItemQuerySet_parent, qs_filter, objects_all, owned_by. simpl.
    rewrite !andb_true_iff, !bool_decide_eq_true. tauto. }
  assert (Hitems : ∀ item, item ∈ select qs st
            ↔ ∃ k row, contentitems st !! k = Some row ∧ scoped row
                       ∧ item = load_item (k, row)).
  { intros item. rewrite elem_of_select, Hqs. split.
    - intros [Hsc (k & row & Hrow & ->)]. by exists k, row.
    - intros (k & row & Hrow & Hsc & ->). split; [done|]. by exists k, row. }
  assert (Hmem : ∀ k, k ∈ key_of <$> select qs st
            ↔ ∃ row, contentitems st !! k = Some row ∧ scoped row).
  { intros k. rewrite list_elem_of_fmap. split.
    - intros (item & -> & Hin). apply Hitems in Hin as (k & row & ? & ? & ->).
      by exists row.
    - intros (row & Hrow & Hsc). exists (load_item (k, row)).
      split; [done|]. apply Hitems. by exists k, row. }
  exists (select qs st). eexists. split.
  { unfold on_delete_model_translation, QuerySet_iter. rewrite bind_run.
    unfold gets. fold P L. fold qs.
    apply (delete_loop_run st); [done|].
    intros item Hin. apply Hitems in Hin as (k & row & Hrow & Hsc & ->).
    split; [by exists k|]. by apply (Hkeys k row). }
  cbn [contentitems placeholders parents cache log].
  split; [done|]. split; [apply NoDup_select_keys|].
  split; [|split; [|split]].
  - intros k row Hrow Hsc. rewrite lookup_delete_rows.
    rewrite decide_True; [done|]. apply Hmem. by exists row.
  - intros k row Hrow Hsc. rewrite lookup_delete_rows.
    rewrite decide_False; [done|]. intros Hin. apply Hmem in Hin as (row' & ? & ?).
    by simplify_eq.
  - intros k Hrow. rewrite lookup_delete_rows. by case_decide.
  - split; [done|]. split; [done|]. split; [done|].
    unfold row_deletes at 1. rewrite omap_app. fold (row_deletes (log st)).
    rewrite invalidations_app.
    fold (row_deletes (select qs st ≫= delete_trace plugin_pool st)).
    rewrite row_deletes_delete_trace, invalidations_delete_trace.
    split; [done|]. split; [done|]. split.
    + intros item key Hin Hkey. rewrite lookup_drop_keys.
      rewrite decide_True; [done|]. apply list_elem_of_bind. by exists item.
    + intros key Hnot. rewrite lookup_drop_keys.
      rewrite decide_False; [done|]. intros Hin.
      apply list_elem_of_bind in Hin as (item & Hkey & Hin).
      by apply (Hnot item).
Qed.

End translation_delete.

(** ** Table names of plugin models *)

Lemma append_cons (c : Ascii.ascii) (s t : string) :
  String c s +:+ t = String c (s +:+ t).
Proof. done. Qed.

Lemma append_assoc (a b c : string) : (a +:+ b) +:+ c = a +:+ (b +:+ c).
Proof.
  induction a as [|x a IH]; [done|]. by rewrite !append_cons, IH.
Qed.

Lemma prefix_append (p s : string) : String.prefix p (p +:+ s) = true.
Proof.
  induction p as [|a p IH]; [by destruct s|].
  rewrite append_cons. simpl. by destruct (Ascii.ascii_dec a a).
Qed.

Lemma string_drop_append (p s : string) :
  string_drop (String.length p) (p +:+ s) = s.
Proof.
  induction p as [|a p IH]; [done|]. rewrite append_cons. apply IH.
Qed.

(** A string that starts with [p] is [p] followed by what is left when
    [p] is cut off. *)
Lemma prefix_string_drop (p s : string) :
  String.prefix p s = true → s = p +:+ string_drop (String.length p) s.
Proof.
  revert s. induction p as [|a p IH]; intros s Hp; [done|].
  destruct s as [|b s]; simpl in Hp; [done|].
  destruct (Ascii.ascii_dec a b) as [->|]; [|done].
  rewrite append_cons. simpl. f_equal. by apply IH.
Qed.

Lemma length_append_underscore (a : string) :
  (String.length a + 1)%nat = String.length (a +:+ "_").
Proof.
  induction a as [|c a IH]; [done|]. rewrite append_cons. simpl. by rewrite IH.
Qed.

(** X2.  Whenever the table name of an accepted plugin model starts with
    its [app_label] and an underscore, customised or not, the metaclass
    renames the table by putting [contentitem_] in front of the old name:
    cutting the label off and formatting it back loses nothing. *)
Theorem metaclass_prefixes_table (name : string) (new_class : ModelClassDecl) :
  name ≠ "ContentItem" →
  unicode_method new_class = OwnUnicode →
  String.prefix (app_label new_class +:+ "_") (db_table new_class) = true →
  ContentItemMetaClass_new name new_class
  = NewClass (set_db_table ("contentitem_" +:+ db_table new_class) new_class).
Proof.
  intros Hname Hunicode Hprefix. unfold ContentItemMetaClass_new.
  rewrite bool_decide_eq_true_2 by done. rewrite Hprefix. simpl.
  rewrite Hunicode. do 2 f_equal.
  rewrite length_append_underscore.
  rewrite (prefix_string_drop _ _ Hprefix) at 2.
  by rewrite !append_assoc.
Qed.

(** X1.  A plugin model whose table carries Django's default name,
    [app_label] then an underscore then the model name, is created with the
    table [contentitem_], [app_label], underscore, model name. *)
Theorem metaclass_default_table (name app model_name : string) :
  name ≠ "ContentItem" →
  ContentItemMetaClass_new name
    (mkModelClassDecl app (app +:+ "_" +:+ model_name) OwnUnicode)
  = NewClass (mkModelClassDecl app
                ("contentitem_" +:+ app +:+ "_" +:+ model_name) OwnUnicode).
Proof.
  intros Hname. unfold ContentItemMetaClass_new. simpl.
  rewrite bool_decide_eq_true_2 by done.
  rewrite <- append_assoc, prefix_append. simpl.
  rewrite length_append_underscore, string_drop_append. unfold set_db_table. simpl. by rewrite !append_assoc.
Qed.

(** X3.  The class named [ContentItem], and any class whose table name
    does not start with its [app_label] and an underscore, comes out of the
    metaclass, when it is accepted, as it went in. *)
Theorem metaclass_keeps_other_tables (name : string) (new_class : ModelClassDecl) :
  name = "ContentItem"
  ∨ String.prefix (app_label new_class +:+ "_") (db_table new_class) = false →
  ∀ c, ContentItemMetaClass_new name new_class = NewClass c → c = new_class.
Proof.
  intros Hcase c. unfold ContentItemMetaClass_new.
  case_bool_decide as Hname; [|congruence].
  destruct Hcase as [?|Hprefix]; [done|]. rewrite Hprefix.
  destruct (unicode_method new_class); congruence.
Qed.

(** X4.  The metaclass raises [FieldError] exactly for classes other than
    [ContentItem] that do not define [__unicode__] themselves (none at
    all, or only the one inherited from [ContentItem]); the table name plays
    no part in it. *)
Theorem metaclass_refuses_without_unicode (name : string)
    (new_class : ModelClassDecl) :
  (∃ message, ContentItemMetaClass_new name new_class = FieldError message)
  ↔ name ≠ "ContentItem" ∧ unicode_method new_class ≠ OwnUnicode.
Proof.
  unfold ContentItemMetaClass_new. cbv zeta. case_bool_decide as Hname.
  - match goal with |- context [unicode_method ?c] => set (c' := c) end.
    assert (unicode_method c' = unicode_method new_class) as ->
      by (subst c'; by destruct (String.prefix _ _)).
    destruct (unicode_method new_class); split.
    + done.
    + intros _. by eexists.
    + done.
    + intros _. by eexists.
    + by intros [? ?].
    + by intros [_ ?].
  - split; [by intros [? ?]|]. intros [? _]. by destruct Hname.
Qed.

(** ** More on saving *)

Section save_more.

Variable default_language : string.
Variable plugin_pool : PluginPool.
Variable storage_accepts : ContentItem → bool.

Local Abbreviation save := (ContentItem_save default_language plugin_pool storage_accepts).

(** What [save] leaves alone. *)
Lemma save_untouched (self : ContentItem) (st : State) :
  placeholders (exec (save self) st) = placeholders st
  ∧ parents (exec (save self) st) = parents st
  ∧ contenttypes (exec (save self) st) = contenttypes st.
Proof.
  unfold exec at 1 2 3. rewrite save_run.
  destruct (fallback_error st self); [done|].
  destruct (storage_accepts _); [|done].
  destruct (truthy_id (pk self)); [|done].
  unfold exec. by rewrite clear_cache_run.
Qed.

Lemma generic_lookup_ext (st st' : State) (ct fk : option Z) :
  parents st' = parents st → generic_lookup st' ct fk = generic_lookup st ct fk.
Proof. intros H. unfold generic_lookup. by rewrite H. Qed.

(** The fallback has nothing left to do on an item that went through it. *)
Lemma with_language_fallback_again (st st' : State) (self : ContentItem)
    (k : option Z) :
  parents st' = parents st →
  with_language_fallback default_language st'
    (set_pk k (with_language_fallback default_language st self))
  = set_pk k (with_language_fallback default_language st self).
Proof.
  intros Hparents. unfold with_language_fallback at 2 3.
  destruct (truthy_str (language_code self)) eqn:Hlang.
  - unfold with_language_fallback. simpl. by rewrite Hlang.
  - unfold with_language_fallback. simpl.
    rewrite (generic_lookup_ext st st') by done.
    set (l := or_else _ _).
    destruct (truthy_str l) eqn:Hl; [done|].
    apply truthy_str_false in Hl. by rewrite Hl.
Qed.

(** X5.  Invalidation is decided by the key, not by the statement: an item
    saved under an assigned key that is not 0 and has no row yet is
    INSERTed, and [clear_cache] runs on it all the same, once, after the
    write, provided the language fallback does not raise while resolving
    the owner and the storage layer takes the row. *)
Theorem save_with_assigned_key_invalidates (self : ContentItem) (k : Z)
    (st : State) :
  pk self = Some k → k ≠ 0 →
  contentitems st !! k = None →
  fallback_error st self = None →
  storage_accepts (with_language_fallback default_language st self) = true →
  let row := with_language_fallback default_language st self in
  let st' := exec (save self) st in
  contentitems st' !! k = Some row
  ∧ ∃ deletions,
      log st' = log st ++ SqlInsert k :: ClearCache row :: deletions
      ∧ invalidations deletions = [].
Proof.
  intros Hk Hk0 Hrow Hres Hacc row st'. pose proof Hacc as Hacc'.
  fold row in Hacc'.
  assert (Hsaved : set_pk (Some (written_key st self)) row = row).
  { apply set_pk_id. unfold written_key. rewrite Hk. simpl.
    subst row. by rewrite pk_with_language_fallback. }
  split.
  - subst st'. rewrite save_contentitems by done. unfold after_write.
    fold row. rewrite Hsaved. unfold written_key. rewrite Hk. simpl.
    apply lookup_insert_eq.
  - pose proof (save_log default_language plugin_pool storage_accepts self st)
      as Hlog. simpl in Hlog. fold row st' in Hlog.
    rewrite Hsaved, Hacc', Hres in Hlog. unfold write_event in Hlog.
    rewrite Hk, Hrow in Hlog. simpl in Hlog.
    assert ((k =? 0) = false) as Hz by lia. rewrite Hz in Hlog. simpl in Hlog.
    eexists. split; [exact Hlog|apply invalidations_cache_deletes].
Qed.

(** X6.  [save] writes one row: every other row, the placeholders and the
    owners stay as they are; the cache can only lose entries, and the save
    of an item without key (or with key 0) leaves the cache exactly as it
    was. *)
Theorem save_frame (self : ContentItem) (st : State) :
  let st' := exec (save self) st in
  placeholders st' = placeholders st
  ∧ parents st' = parents st
  ∧ (∀ k, k ≠ written_key st self →
       contentitems st' !! k = contentitems st !! k)
  ∧ (∀ key v, cache st' !! key = Some v → cache st !! key = Some v)
  ∧ (pk self = None ∨ pk self = Some 0 → cache st' = cache st).
Proof.
  intros st'. destruct (save_untouched self st) as (Hph & Hpa & _).
  split; [done|]. split; [done|].
  subst st'. unfold exec. rewrite save_run.
  destruct (fallback_error st self); [by repeat split|].
  destruct (storage_accepts _); [|by repeat split].
  destruct (truthy_id (pk self)) eqn:Hpk.
  - unfold exec. rewrite clear_cache_run. simpl. split; [|split].
    + intros k Hne. by apply lookup_insert_ne.
    + intros key v. rewrite lookup_drop_keys. by case_decide.
    + intros [Hnew|Hnew]; by rewrite Hnew in Hpk.
  - simpl. split; [|done]. intros k Hne. by apply lookup_insert_ne.
Qed.

(** X7.  Saving the instance that a successful [save] returned a second
    time leaves the table of items as the first save left it: the language
    fallback has nothing left to change and the row is rewritten with
    itself. *)
Theorem save_again_keeps_table (self self' : ContentItem) (st st' : State) :
  save self st = (Ok self', st') →
  contentitems (exec (save self') st') = contentitems st'.
Proof.
  intros Hsave.
  assert (Hparents : parents st' = parents st).
  { replace st' with (exec (save self) st) by (unfold exec; by rewrite Hsave).
    apply save_untouched. }
  apply save_ok_inv in Hsave as (_ & _ & -> & Hrows).
  set (k := written_key st self) in *.
  set (row := set_pk (Some k) (with_language_fallback default_language st self))
    in *.
  assert (Hagain : with_language_fallback default_language st' row = row)
    by by apply with_language_fallback_again.
  unfold exec. rewrite save_run, Hagain.
  destruct (fallback_error st' row); [done|].
  destruct (storage_accepts row); [|done].
  assert (Hwritten : contentitems (after_write default_language st' row)
                     = contentitems st').
  { unfold after_write. simpl. rewrite Hagain.
    unfold written_key at 1 2. simpl. rewrite Hrows.
    unfold after_write. simpl. fold k row.
    rewrite set_pk_id by done. apply insert_insert_eq. }
  destruct (truthy_id (pk row)); [|done]. simpl.
  unfold exec. by rewrite clear_cache_run.
Qed.

(** X8.  An item saved with the link to a placeholder and with that
    placeholder's owner reference is among the items that the placeholder's
    unfiltered [get_content_items] yields afterwards. *)
Theorem saved_item_is_listed (self self' : ContentItem) (st st' : State)
    (placeholder : Placeholder) (limit_parent_language : bool) :
  save self st = (Ok self', st') →
  placeholder_id self = ph_pk placeholder →
  parent_type_id self = ph_parent_type_id placeholder →
  parent_id self = ph_parent_id placeholder →
  self' ∈ select
           (Placeholder_get_content_items placeholder None limit_parent_language)
           st'.
Proof.
  intros Hsave Hlink Htype Hid.
  apply save_ok_inv in Hsave as (_ & _ & -> & Hrows).
  set (k := written_key st self) in *.
  assert (Hfields : ∀ r, placeholder_id (with_language_fallback default_language st r)
                         = placeholder_id r
                       ∧ parent_type_id (with_language_fallback default_language st r)
                         = parent_type_id r
                       ∧ parent_id (with_language_fallback default_language st r)
                         = parent_id r).
  { intros r. unfold with_language_fallback. by destruct (truthy_str _). }
  destruct (Hfields self) as (Hf1 & Hf2 & Hf3).
  apply elem_of_select. split.
  - unfold Placeholder_get_content_items, Placeholder_contentitems, qs_filter,
      objects_all. simpl. rewrite Hf1, Hf2, Hf3.
    by rewrite !bool_decide_eq_true_2.
  - eexists k, _. split.
    + rewrite Hrows. unfold after_write. simpl. apply lookup_insert_eq.
    + done.
Qed.

End save_more.

(** ** More on deleting and on cache keys *)

Section item_more.

Variable plugin_pool : PluginPool.

(** X9.  [delete] of a saved item removes its row and no other and clears
    the key on the returned instance.  The invalidation runs after the row
    is gone, on the instance whose primary key was cleared: the cache keys
    [keys] computed for that instance (the computation succeeding) are
    absent afterwards, and every other cache entry is left alone, an entry
    stored under a key that the item had only while its primary key was set
    included.  When the keys of the item are the same with and without
    primary key, all the cache keys of the saved item are absent. *)
Theorem delete_removes_row_and_cache_keys (self : ContentItem) (k : Z)
    (keys : list string) (st : State) :
  pk self = Some k →
  cache_keys_in plugin_pool st (set_pk None self) = Ok keys →
  ∃ st',
    ContentItem_delete plugin_pool self st = (Ok (set_pk None self), st')
    ∧ contentitems st' !! k = None
    ∧ (∀ k', k' ≠ k → contentitems st' !! k' = contentitems st !! k')
    ∧ placeholders st' = placeholders st
    ∧ (∀ key, key ∈ keys → cache st' !! key = None)
    ∧ (∀ key, key ∉ keys → cache st' !! key = cache st !! key)
    ∧ (∀ saved_keys key,
         cache_keys_in plugin_pool st self = Ok saved_keys →
         key ∈ saved_keys → key ∉ keys →
         cache st' !! key = cache st !! key)
    ∧ (cache_keys_in plugin_pool st self = Ok keys →
       ∀ saved_keys key,
         cache_keys_in plugin_pool st self = Ok saved_keys →
         key ∈ saved_keys → cache st' !! key = None)
    ∧ log st'
      = log st ++ SqlDelete k :: ClearCache (set_pk None self)
                    :: (CacheDelete <$> keys).
Proof.
  intros Hk Hkeys. eexists. split.
  { rewrite (ContentItem_delete_run plugin_pool self k st Hk). by rewrite Hkeys. }
  simpl. split; [apply lookup_delete_eq|].
  split; [intros k' Hne; by apply lookup_delete_ne|].
  split; [done|]. split; [|split; [|split; [|split]]].
  - intros key Hin. rewrite lookup_drop_keys. by rewrite decide_True.
  - intros key Hin. rewrite lookup_drop_keys. by rewrite decide_False.
  - intros saved_keys key _ _ Hin. rewrite lookup_drop_keys.
    by rewrite decide_False.
  - intros Hsame saved_keys key Hsaved Hin.
    rewrite Hsame in Hsaved. injection Hsaved as <-.
    rewrite lookup_drop_keys. by rewrite decide_True.
  - unfold delete_trace, key_of. by rewrite Hk, Hkeys.
Qed.

(** What goes wrong in [get_cache_keys]: the placeholder row, then the
    plugin. *)
Lemma get_cache_keys_raises (self : ContentItem) (p : Z) (st : State) :
  placeholder_id self = Some p → p ≠ 0 →
  (placeholders st !! p = None →
   ContentItem_get_cache_keys plugin_pool self st = (Raise DoesNotExist, st))
  ∧ (∀ placeholder e,
       placeholders st !! p = Some placeholder →
       (ContentItem_plugin plugin_pool self st).1 = Raise e →
       ContentItem_get_cache_keys plugin_pool self st = (Raise e, st)).
Proof.
  intros Hp Hp0.
  assert ((p =? 0) = false) as Hz by lia.
  unfold ContentItem_get_cache_keys, ForeignKey_get_placeholder.
  rewrite Hp. simpl. rewrite Hz. simpl. split.
  - intros Hnone. run. by rewrite Hnone.
  - intros placeholder e Hsome. run. rewrite Hsome. simpl.
    unfold ContentItem_plugin.
    case_bool_decide; run.
    + destruct (_get_plugin_by_content_type _ _); simpl; congruence.
    + destruct (get_plugin_by_model _ _); simpl; congruence.
Qed.

(** X11.  [get_cache_keys] of an item with a true placeholder link raises
    [DoesNotExist] when the placeholder row is missing and passes on the
    error of the plugin lookup when the plugin is not registered; in both
    cases the store is as before. *)
Theorem get_cache_keys_errors (self : ContentItem) (p : Z) (st : State) :
  placeholder_id self = Some p → p ≠ 0 →
  (placeholders st !! p = None →
   ContentItem_get_cache_keys plugin_pool self st = (Raise DoesNotExist, st))
  ∧ (∀ placeholder e,
       placeholders st !! p = Some placeholder →
       (ContentItem_plugin plugin_pool self st).1 = Raise e →
       ContentItem_get_cache_keys plugin_pool self st = (Raise e, st)).
Proof. apply get_cache_keys_raises. Qed.

(** X10.  [delete] is not atomic: for an item linked to an existing
    placeholder whose plugin is not registered, the call raises the lookup
    error, yet the row is already deleted; the cache is untouched. *)
Theorem delete_with_unregistered_plugin (self : ContentItem) (k p : Z)
    (placeholder : Placeholder) (st : State) :
  pk self = Some k →
  placeholder_id self = Some p → p ≠ 0 →
  placeholders st !! p = Some placeholder →
  (ContentItem_plugin plugin_pool self st).1 = Raise PluginNotFound →
  ∃ st',
    ContentItem_delete plugin_pool self st = (Raise PluginNotFound, st')
    ∧ contentitems st' = delete k (contentitems st)
    ∧ cache st' = cache st.
Proof.
  intros Hk Hp Hp0 Hph Hplugin.
  assert (Hkeys : cache_keys_in plugin_pool st (set_pk None self)
                  = Raise PluginNotFound).
  { unfold cache_keys_in.
    destruct (get_cache_keys_raises (set_pk None self) p st Hp Hp0) as [_ H].
    by rewrite (H placeholder PluginNotFound Hph Hplugin). }
  pose proof (ContentItem_delete_run plugin_pool self k st Hk) as Hrun.
  cbv zeta in Hrun. rewrite Hkeys in Hrun.
  eexists. split; [exact Hrun|]. by split.
Qed.

(** X12.  [clear_cache] touches neither items nor placeholders nor owners
    and never adds to the cache; when the keys cannot be computed it raises
    that error and leaves the cache as it was. *)
Theorem clear_cache_frame (self : ContentItem) (st : State) :
  let st' := exec (ContentItem_clear_cache plugin_pool self) st in
  contentitems st' = contentitems st
  ∧ placeholders st' = placeholders st
  ∧ parents st' = parents st
  ∧ (∀ key v, cache st' !! key = Some v → cache st !! key = Some v)
  ∧ (¬ is_ok (cache_keys_in plugin_pool st self) →
     (ContentItem_clear_cache plugin_pool self st).1
     = void (cache_keys_in plugin_pool st self)
     ∧ cache st' = cache st).
Proof.
  intros st'. subst st'. unfold exec. rewrite clear_cache_run. simpl.
  repeat split.
  - intros key v. rewrite lookup_drop_keys. by case_decide.
  - by destruct (cache_keys_in plugin_pool st self).
Qed.

End item_more.


(** ** More on placeholders *)

(** The store that [Placeholder.delete] leaves. *)
Lemma Placeholder_delete_run (self : Placeholder) (p : Z) (st : State) :
  ph_pk self = Some p →
  ∃ l,
    Placeholder_delete self st
    = (Ok tt, mkState (detach p <$> contentitems st) (delete p (placeholders st))
                (parents st) (contenttypes st) (cache st) l).
Proof.
  intros Hpk.
  set (qs := qs_filter objects_all (λ i, bool_decide (placeholder_id i = Some p))).
  assert (Hrows : map_imap (λ k i, Some (if qs (load_item (k, i))
                                         then set_placeholder_id None i else i))
                    (contentitems st)
                  = detach p <$> contentitems st).
  { apply map_eq. intros k. rewrite map_lookup_imap, lookup_fmap.
    destruct (contentitems st !! k) as [row|]; [|done]. simpl.
    subst qs. unfold qs_filter, objects_all, detach. simpl.
    by destruct (decide (placeholder_id row = Some p));
      [rewrite bool_decide_eq_true_2|rewrite bool_decide_eq_false_2]. }
  assert (Hnone : matching_keys qs (detach p <$> contentitems st) = []).
  { apply matching_keys_nil. intros k row Hrow. rewrite lookup_fmap in Hrow.
    destruct (contentitems st !! k) as [row0|]; [|done].
    simpl in Hrow. injection Hrow as <-.
    subst qs. unfold qs_filter, objects_all, detach. simpl.
    apply bool_decide_eq_false_2.
    by destruct (decide (placeholder_id row0 = Some p)). }
  eexists.
  unfold Placeholder_delete, Placeholder_Model_delete. rewrite Hpk.
  rewrite bind_run, QuerySet_update_placeholder_run. fold qs. rewrite Hrows.
  run. fold qs. rewrite Hnone. simpl. reflexivity.
Qed.

Lemma select_nil (qs : QuerySet) (st : State) :
  (∀ k row, contentitems st !! k = Some row → qs (load_item (k, row)) = false) →
  select qs st = [].
Proof.
  intros Hnone. apply elem_of_nil_inv. intros item Hin.
  apply elem_of_select in Hin as [Hqs (k & row & Hrow & ->)].
  by rewrite (Hnone k row Hrow) in Hqs.
Qed.

(** Whatever the mode, [get_content_items] starts from the rows linked to
    the placeholder. *)
Lemma get_content_items_linked (self : Placeholder) (parent : option ParentObject)
    (limit : bool) (item : ContentItem) :
  Placeholder_get_content_items self parent limit item = true →
  placeholder_id item = ph_pk self.
Proof.
  unfold Placeholder_get_content_items, ContentItemQuerySet_parent,
    Placeholder_contentitems, qs_filter, objects_all.
  destruct parent; simpl; rewrite !andb_true_iff, bool_decide_eq_true; tauto.
Qed.

(** X13.  After [Placeholder.delete], [get_content_items] of the deleted
    placeholder yields nothing, in either mode and with any owner. *)
Theorem placeholder_delete_empties_queries (self : Placeholder) (p : Z)
    (st : State) (parent : option ParentObject) (limit_parent_language : bool) :
  ph_pk self = Some p →
  select (Placeholder_get_content_items self parent limit_parent_language)
    (exec (Placeholder_delete self) st)
  = [].
Proof.
  intros Hpk. destruct (Placeholder_delete_run self p st Hpk) as [l Hrun].
  unfold exec. rewrite Hrun. simpl.
  apply select_nil. simpl. intros k row Hrow.
  destruct (Placeholder_get_content_items _ _ _ _) eqn:Hqs; [|done].
  apply get_content_items_linked in Hqs. simpl in Hqs. rewrite Hpk in Hqs.
  rewrite lookup_fmap in Hrow.
  destruct (contentitems st !! k) as [row0|]; [|done].
  simpl in Hrow. injection Hrow as <-. unfold detach in Hqs.
  by destruct (decide (placeholder_id row0 = Some p)).
Qed.

(** X14.  An item that [Placeholder.delete] detached has an empty cache-key
    set afterwards, whatever the plugin registry, while the cache is as it
    was before the deletion: what was cached for the item under the old slot
    is not invalidated by later saves or deletes of the item. *)
Theorem detached_items_have_no_cache_keys (self : Placeholder) (p k : Z)
    (row : ContentItem) (st : State) (any_pool : PluginPool) :
  ph_pk self = Some p →
  contentitems st !! k = Some row →
  placeholder_id row = Some p →
  let st' := exec (Placeholder_delete self) st in
  ∃ row',
    contentitems st' !! k = Some row'
    ∧ ContentItem_get_cache_keys any_pool (load_item (k, row')) st' = (Ok [], st')
    ∧ cache st' = cache st.
Proof.
  intros Hpk Hrow Hlinked st'.
  destruct (Placeholder_delete_run self p st Hpk) as [l Hrun].
  subst st'. unfold exec. rewrite Hrun. simpl.
  exists (set_placeholder_id None row). split; [|done].
  rewrite lookup_fmap, Hrow. simpl. unfold detach. by rewrite decide_True.
Qed.

(** X15.  In both modes [get_content_items] yields rows of the table that
    are linked to the placeholder: filtering by an owner narrows the linked
    rows, it never brings in a row linked elsewhere. *)
Theorem get_content_items_from_linked_rows (self : Placeholder)
    (parent : option ParentObject) (limit_parent_language : bool)
    (st : State) (item : ContentItem) :
  item ∈ select (Placeholder_get_content_items self parent limit_parent_language) st →
  placeholder_id item = ph_pk self
  ∧ ∃ k row, contentitems st !! k = Some row ∧ item = load_item (k, row).
Proof.
  intros Hin. apply elem_of_select in Hin as [Hqs Hrow].
  split; [by eapply get_content_items_linked|done].
Qed.

Lemma item_le_spec (a b : ContentItem) :
  item_le a b
  ↔ option_Z_ltb (placeholder_id a) (placeholder_id b) = true
    ∨ (placeholder_id a = placeholder_id b ∧ sort_order a ≤ sort_order b).
Proof.
  unfold item_le, item_leb.
  rewrite orb_True, andb_True, bool_decide_spec, !Is_true_true, Z.leb_le.
  done.
Qed.

Global Instance item_le_total : Total item_le.
Proof.
  intros a b. rewrite !item_le_spec.
  destruct (placeholder_id a) as [x|], (placeholder_id b) as [y|]; simpl.
  - destruct (Z.lt_trichotomy x y) as [?|[->|?]].
    + left; left. by apply Z.ltb_lt.
    + destruct (Z.le_ge_cases (sort_order a) (sort_order b));
        [left|right]; right; split; done.
    + right; left. by apply Z.ltb_lt.
  - by right; left.
  - by left; left.
  - destruct (Z.le_ge_cases (sort_order a) (sort_order b));
      [left|right]; right; split; done.
Qed.

Lemma option_Z_ltb_trans (x y z : option Z) :
  option_Z_ltb x y = true → option_Z_ltb y z = true → option_Z_ltb x z = true.
Proof.
  destruct x, y, z; simpl; try done. rewrite !Z.ltb_lt. lia.
Qed.

Global Instance item_le_trans : Transitive item_le.
Proof.
  intros a b c. rewrite !item_le_spec.
  intros [H1|[H1 H1']] [H2|[H2 H2']].
  - left. by eapply option_Z_ltb_trans.
  - left. by rewrite <- H2.
  - left. by rewrite H1.
  - right. split; [congruence|lia].
Qed.

(** X16.  The items that [get_content_items] yields come in ascending
    [sort_order], whatever the order of the rows in the table
    ([Meta.ordering], all items sharing the placeholder). *)
Theorem get_content_items_sorted (self : Placeholder)
    (parent : option ParentObject) (limit_parent_language : bool) (st : State) :
  StronglySorted (λ a b, sort_order a ≤ sort_order b)
    (select (Placeholder_get_content_items self parent limit_parent_language) st).
Proof.
  set (qs := Placeholder_get_content_items self parent limit_parent_language).
  assert (Hlinked : ∀ item, item ∈ select qs st →
            placeholder_id item = ph_pk self).
  { intros item Hin. apply elem_of_select in Hin as [Hqs _].
    by eapply get_content_items_linked. }
  assert (Hsorted : StronglySorted item_le (select qs st))
    by (unfold select; apply StronglySorted_merge_sort; apply _).
  induction Hsorted as [|a l Hl IH Hall]; [constructor|].
  constructor.
  - apply IH. intros item Hin. apply Hlinked. by right.
  - apply Forall_forall. intros b Hb.
    assert (Hab : item_le a b) by (by eapply Forall_forall in Hall).
    assert (Hsame : placeholder_id a = placeholder_id b).
    { rewrite (Hlinked a) by by left. rewrite (Hlinked b) by by right. done. }
    apply item_le_spec in Hab as [Hlt|[_ Hle]]; [|done].
    rewrite Hsame in Hlt. destruct (placeholder_id b); simpl in Hlt; [|done].
    apply Z.ltb_lt in Hlt. lia.
Qed.

(** X17.  A placeholder and an item with the same owner reference, the
    owner id being set and not 0, resolve the same URL, with the same
    outcome when resolution raises, unless the content type of the reference
    is stale: the placeholder reads its owner inside the [try] and the item
    outside, so that for a stale content type the placeholder returns no URL
    while the item raises [AttributeError]. *)
Theorem urls_of_placeholder_and_item_agree (placeholder : Placeholder)
    (item : ContentItem) (st : State) :
  parent_type_id item = ph_parent_type_id placeholder →
  parent_id item = ph_parent_id placeholder →
  truthy_id (ph_parent_id placeholder) = true →
  let type_error := content_type_error st (ph_parent_type_id placeholder) in
  (type_error ≠ Some AttributeError →
     Placeholder_get_absolute_url placeholder st
     = ContentItem_get_absolute_url item st)
  ∧ (type_error = Some AttributeError →
     Placeholder_get_absolute_url placeholder st = (Ok None, st)
     ∧ ContentItem_get_absolute_url item st = (Raise AttributeError, st)).
Proof.
  intros Htype Hid Htruthy type_error.
  rewrite Placeholder_get_absolute_url_run, ContentItem_get_absolute_url_run.
  rewrite Htype, Hid, Htruthy. fold type_error. simpl. split.
  - intros Hlive.
    destruct (truthy_id (ph_parent_type_id placeholder)) eqn:Hct.
    + destruct type_error as [e|]; [|done].
      rewrite decide_False; [done|congruence].
    + destruct type_error as [e|] eqn:He.
      * apply content_type_error_truthy in He. congruence.
      * unfold generic_lookup. by rewrite Hct.
  - intros Hstale. rewrite Hstale.
    by rewrite (content_type_error_truthy _ _ _ Hstale).
Qed.

(** ** More on deleting a translation *)

Section translation_more.

Variable plugin_pool : PluginPool.

Lemma translation_items_spec (instance : Translation) (item : ContentItem) :
  translation_items instance item = true
  ↔ owned_by (master instance) item
    ∧ language_code item = tr_language_code instance.
Proof.
  unfold translation_items, ContentItemQuerySet_parent, qs_filter, objects_all,
    owned_by. simpl.
  rewrite !andb_true_iff, !bool_decide_eq_true. tauto.
Qed.

Lemma on_delete_model_translation_run (instance : Translation) (st : State) :
  on_delete_model_translation plugin_pool instance st
  = for_each (select (translation_items instance) st)
      (λ item, ContentItem_delete plugin_pool item ;; mret tt) st.
Proof. done. Qed.

(** X18.  Each item that the receiver's query yields is invalidated after
    its row is gone, as the instance whose primary key was cleared.  When
    the cache keys of these instances can be computed, handling the signal
    leaves every key computed for them absent, adds nothing to the cache,
    and keeps every entry that is no such key, an entry stored under a key
    that an item had only while its primary key was set included.  For an
    item whose keys are the same with and without primary key, all the
    cache keys of the stored item are absent. *)
Theorem translation_delete_clears_cache (instance : Translation) (st : State) :
  let items := select (translation_items instance) st in
  let keys_of item :=
    ok_or [] (cache_keys_in plugin_pool st (set_pk None item)) in
  (∀ item, item ∈ items →
     is_ok (cache_keys_in plugin_pool st (set_pk None item))) →
  let st' := exec (on_delete_model_translation plugin_pool instance) st in
  (∀ item key, item ∈ items → key ∈ keys_of item → cache st' !! key = None)
  ∧ (∀ key v, cache st' !! key = Some v → cache st !! key = Some v)
  ∧ (∀ key, (∀ item, item ∈ items → key ∉ keys_of item) →
       cache st' !! key = cache st !! key)
  ∧ (∀ item saved_keys key,
       item ∈ items →
       cache_keys_in plugin_pool st item = Ok saved_keys →
       cache_keys_in plugin_pool st (set_pk None item) = Ok saved_keys →
       key ∈ saved_keys → cache st' !! key = None).
Proof.
  intros items keys_of Hkeys st'.
  assert (Hcache : cache st' = drop_keys (items ≫= keys_of) (cache st)).
  { subst st'. unfold exec. rewrite on_delete_model_translation_run.
    fold items. rewrite (delete_loop_run plugin_pool st); [done|done|].
    intros item Hin. split; [|by apply Hkeys].
    apply elem_of_select in Hin as [_ (k & row & _ & ->)]. by exists k. }
  rewrite Hcache. split; [|split; [|split]].
  - intros item key Hin Hkey. rewrite lookup_drop_keys.
    rewrite decide_True; [done|]. apply list_elem_of_bind. by exists item.
  - intros key v. rewrite lookup_drop_keys. by case_decide.
  - intros key Hnot. rewrite lookup_drop_keys.
    rewrite decide_False; [done|]. intros Hin.
    apply list_elem_of_bind in Hin as (item & Hkey & Hin).
    by apply (Hnot item).
  - intros item saved_keys key Hin _ Hgone Hkey. rewrite lookup_drop_keys.
    rewrite decide_True; [done|]. apply list_elem_of_bind. exists item.
    split; [|done]. subst keys_of. simpl. by rewrite Hgone.
Qed.

(** X19.  The receiver is not atomic: when the invalidation of the first
    item of its query fails, the handler raises that error with the first
    row deleted, only that row, and the cache untouched. *)
Theorem translation_delete_stops_at_failure (instance : Translation)
    (item : ContentItem) (rest : list ContentItem) (e : Exn) (st : State) :
  select (translation_items instance) st = item :: rest →
  cache_keys_in plugin_pool st (set_pk None item) = Raise e →
  ∃ st',
    on_delete_model_translation plugin_pool instance st = (Raise e, st')
    ∧ contentitems st' = delete (key_of item) (contentitems st)
    ∧ cache st' = cache st
    ∧ row_deletes (log st') = row_deletes (log st) ++ [key_of item].
Proof.
  intros Hselect Hkeys.
  assert (Hin : item ∈ select (translation_items instance) st)
    by (rewrite Hselect; by left).
  apply elem_of_select in Hin as [_ (k & row & Hrow & ->)].
  pose proof (ContentItem_delete_run plugin_pool (load_item (k, row)) k st
                eq_refl) as Hrun.
  cbv zeta in Hrun. rewrite Hkeys in Hrun.
  eexists. split.
  { rewrite on_delete_model_translation_run, Hselect. cbn [for_each].
    rewrite !bind_run, Hrun. reflexivity. }
  simpl. split; [done|]. split; [done|].
  unfold row_deletes. rewrite omap_app. unfold delete_trace.
  by rewrite Hkeys.
Qed.

End translation_more.

(** ** Examples on the sample site *)

Section examples.

Import Sample.

(** Against C1 as stated: the row with key 0 exists, [save] updates it
    and returns, and no invalidation was invoked. *)
Lemma save_existing_zero_key_not_invalidated :
  contentitems zero_store !! 0 = Some zero_item
  ∧ ContentItem_save "en" pool accepts zero_item zero_store
    = (Ok zero_item, with_log (λ _, [SqlUpdate 0]) zero_store)
  ∧ invalidations
      (log (exec (ContentItem_save "en" pool accepts zero_item) zero_store))
    = [].
Proof. repeat split; vm_compute; reflexivity. Qed.

(** An update of row 1 is invalidated once; the creation of a new item is
    not. *)
Lemma save_invalidation_witness :
  invalidations
    (log (exec (ContentItem_save "en" pool accepts blanked_item) store))
  = [text_item (Some 1) "fr" (Some 1) 1]
  ∧ invalidations
      (log (exec (ContentItem_save "en" pool accepts new_item) store))
    = [].
Proof.
  destruct (save_invalidation "en" pool accepts blanked_item store)
    as (_ & _ & _ & Hupdate).
  destruct (save_invalidation "en" pool accepts new_item store) as (Hnew & _).
  split.
  - destruct (Hupdate 1) as (_ & Hinv & _);
      [reflexivity|lia|reflexivity|reflexivity|].
    exact Hinv.
  - apply Hnew. by left.
Defined.




(** Against C7 as stated: the item is linked to the placeholder with key
    0, whose row exists, and its plugin is registered and would name a key,
    yet the key set comes back empty. *)
Lemma get_cache_keys_zero_link_not_delegated :
  placeholder_id zero_item = Some 0
  ∧ placeholders zero_store !! 0
    = Some (mkPlaceholder (Some 0) "main" MAIN (Some 3) (Some 0) "")
  ∧ (ContentItem_plugin pool zero_item zero_store).1 = Ok text_plugin
  ∧ get_output_cache_keys text_plugin "main" zero_item = ["contentitem.@main.en"]
  ∧ ContentItem_get_cache_keys pool zero_item zero_store = (Ok [], zero_store).
Proof. repeat split; vm_compute; reflexivity. Qed.


(** The rendering of the French item in "main" is cached, and gone after
    one invalidation as after two. *)
Lemma clear_cache_idempotent_witness :
  let once := exec (ContentItem_clear_cache pool fr_item) store in
  let twice := exec (ContentItem_clear_cache pool fr_item) once in
  cache store !! "contentitem.@main.fr" = Some "<p>bonjour</p>"
  ∧ cache once !! "contentitem.@main.fr" = None
  ∧ cache twice !! "contentitem.@main.fr" = None
  ∧ cache twice = cache once.
Proof.
  intros once twice.
  destruct (clear_cache_idempotent pool fr_item store)
    as (_ & Hsame & Habsent & _).
  split; [reflexivity|].
  destruct (Habsent "contentitem.@main.fr") as [H1 H2].
  { change (ok_or [] (cache_keys_in pool store fr_item))
      with ["contentitem.@main.fr"]. apply list_elem_of_here. }
  repeat split; assumption.
Defined.

(** An orphaned item under an empty registry, and a linked item. *)
Lemma get_cache_keys_cases_witness :
  ContentItem_get_cache_keys no_plugins orphan_item store = (Ok [], store)
  ∧ ContentItem_get_cache_keys pool fr_item store
    = (Ok ["contentitem.@main.fr"], store).
Proof.
  destruct (get_cache_keys_cases pool orphan_item store) as [Hnull _].
  destruct (get_cache_keys_cases pool fr_item store) as [_ Hlinked].
  split.
  - apply Hnull. by left.
  - apply (Hlinked 1 main text_plugin); [reflexivity|lia|reflexivity|reflexivity].
Defined.


(** The French item of "main" is found by the unfiltered query. *)
Lemma unfiltered_matches_own_owner_witness :
  fr_item ∈ select (Placeholder_get_content_items main None true) store.
Proof.
  apply unfiltered_matches_own_owner. split; [|done].
  exists 2, fr_item. split; reflexivity.
Defined.

(** Every row of the sample store belongs to the page. *)
Lemma filtered_agrees_with_unfiltered_witness :
  pk <$> select (Placeholder_get_content_items main None true) store
  = pk <$> select (Placeholder_get_content_items main (Some page) false) store.
Proof.
  apply (filtered_agrees_with_unfiltered main page store); [reflexivity..|].
  assert (Hall : map_Forall (λ _ row, owned_by page row) (contentitems store))
    by (refine (bool_decide_unpack _ _); vm_compute; exact I).
  intros k row Hrow _. exact (Hall k row Hrow).
Defined.

(** Deleting "main" leaves row 2 in place, without placeholder. *)
Lemma placeholder_delete_detaches_witness :
  ∃ st',
    Placeholder_delete main store = (Ok tt, st')
    ∧ placeholders st' !! 1 = None
    ∧ contentitems st' !! 2 = Some (set_placeholder_id None fr_item).
Proof.
  destruct (placeholder_delete_detaches main 1 store eq_refl)
    as (st' & Hrun & Hph & _ & Hlinked & _).
  exists st'. split; [exact Hrun|]. split.
  - rewrite Hph. apply lookup_delete_eq.
  - apply Hlinked; reflexivity.
Defined.

(** Against C5 as stated: row 2 belongs to the page and is French, but
    the French row before it is of a plugin that is no longer registered:
    its invalidation raises after its row was deleted, the handler passes
    the error on, and row 2 is neither deleted nor invalidated. *)
Lemma translation_delete_leaves_scoped_row :
  let st' := exec (on_delete_model_translation pool fr_deleted) drift_store in
  contentitems drift_store !! 2 = Some fr_item
  ∧ owned_by (master fr_deleted) fr_item
  ∧ language_code fr_item = tr_language_code fr_deleted
  ∧ (on_delete_model_translation pool fr_deleted drift_store).1
    = Raise PluginNotFound
  ∧ contentitems st' !! 2 = Some fr_item
  ∧ invalidations (log st') = [set_pk None unknown_item]
  ∧ cache st' = cache drift_store.
Proof. repeat split; vm_compute; reflexivity. Qed.

(** Deleting the French translation of the page removes rows 2 and 3,
    keeps row 1 and the placeholders, invalidates twice, and the French
    rendering of "main" is gone from the cache while the English one
    stays. *)
Lemma translation_delete_scoped_witness :
  ∃ st',
    on_delete_model_translation pool fr_deleted store = (Ok tt, st')
    ∧ contentitems st' !! 2 = None
    ∧ contentitems st' !! 3 = None
    ∧ contentitems st' !! 1 = Some (text_item (Some 1) "en" (Some 1) 1)
    ∧ placeholders st' = placeholders store
    ∧ length (invalidations (log st')) = 2%nat
    ∧ cache st' !! "contentitem.@main.fr" = None
    ∧ cache st' !! "contentitem.@main.en" = Some "<p>hello</p>".
Proof.
  destruct (translation_delete_scoped pool fr_deleted store)
    as (items & st' & Hrun & Hitems & Hnodup & Hgone & Hkept & _ & Hph & _ & _
        & _ & Hinv & _).
  { assert (Hall : map_Forall
              (λ _ row, is_ok (cache_keys_in pool store (set_pk None row)))
              (contentitems store))
      by (refine (bool_decide_unpack _ _); vm_compute; exact I).
    intros k row Hrow _. exact (Hall k row Hrow). }
  exists st'. split; [exact Hrun|].
  split; [apply (Hgone 2 fr_item); [reflexivity|by repeat split]|].
  split; [apply (Hgone 3 (text_item (Some 3) "fr" (Some 2) 1));
          [reflexivity|by repeat split]|].
  split; [apply Hkept; [reflexivity|by intros [_ ?]]|].
  split; [exact Hph|].
  assert (Hrun' : on_delete_model_translation pool fr_deleted store
            = (Ok tt, exec (on_delete_model_translation pool fr_deleted) store))
    by (vm_compute; reflexivity).
  rewrite Hrun in Hrun'. injection Hrun' as ->.
  repeat split; vm_compute; reflexivity.
Defined.

End examples.

(** ** Further examples on the sample site *)

Section more_examples.

Import Sample.

(** The model of the sharedcontent plugin. *)
Lemma metaclass_prefixes_table_witness :
  ContentItemMetaClass_new "SharedContentItem" SharedContentItem
  = NewClass (mkModelClassDecl "sharedcontent"
                "contentitem_sharedcontent_sharedcontentitem" OwnUnicode).
Proof.
  apply (metaclass_prefixes_table "SharedContentItem" SharedContentItem);
    [done|reflexivity|reflexivity].
Defined.

(** A text plugin model in an app [text]. *)
Lemma metaclass_default_table_witness :
  ContentItemMetaClass_new "TextItem"
    (mkModelClassDecl "text" "text_textitem" OwnUnicode)
  = NewClass (mkModelClassDecl "text" "contentitem_text_textitem" OwnUnicode).
Proof. apply (metaclass_default_table "TextItem" "text" "textitem"). done. Defined.

(** A table name that does not start with the app label. *)
Lemma metaclass_keeps_other_tables_witness :
  ContentItemMetaClass_new "Teaser"
    (mkModelClassDecl "blog" "legacy_teasers" OwnUnicode)
  = NewClass (mkModelClassDecl "blog" "legacy_teasers" OwnUnicode).
Proof.
  destruct (ContentItemMetaClass_new "Teaser"
              (mkModelClassDecl "blog" "legacy_teasers" OwnUnicode))
    as [c|message] eqn:Hnew; [|by vm_compute in Hnew].
  f_equal.
  apply (metaclass_keeps_other_tables "Teaser"
           (mkModelClassDecl "blog" "legacy_teasers" OwnUnicode));
    [by right|exact Hnew].
Defined.

(** A plugin model that only inherits [__unicode__]. *)
Lemma metaclass_refuses_without_unicode_witness :
  ∃ message,
    ContentItemMetaClass_new "Teaser"
      (mkModelClassDecl "blog" "blog_teaser" InheritedUnicode)
    = FieldError message.
Proof.
  apply (metaclass_refuses_without_unicode "Teaser"
           (mkModelClassDecl "blog" "blog_teaser" InheritedUnicode)).
  by split.
Defined.

(** Key 7 is free in the sample store. *)
Lemma save_with_assigned_key_invalidates_witness :
  contentitems store !! 7 = None
  ∧ invalidations
      (log (exec (ContentItem_save "en" pool accepts assigned_item) store))
    = [assigned_item].
Proof.
  split; [reflexivity|].
  destruct (save_with_assigned_key_invalidates "en" pool accepts
              assigned_item 7 store)
    as (_ & deletions & Hlog & Hdel);
    [reflexivity|lia|reflexivity|reflexivity|reflexivity|].
  rewrite Hlog. simpl. by rewrite Hdel.
Defined.

(** Creating an item leaves the cached renderings alone. *)
Lemma save_frame_witness :
  cache (exec (ContentItem_save "en" pool accepts new_item) store) = cache store.
Proof.
  destruct (save_frame "en" pool accepts new_item store)
    as (_ & _ & _ & _ & Hnew).
  apply Hnew. by left.
Defined.

(** The new item gets key 5 and the language of its page. *)
Lemma save_again_keeps_table_witness :
  let st' := exec (ContentItem_save "en" pool accepts new_item) store in
  contentitems
    (exec (ContentItem_save "en" pool accepts (text_item (Some 5) "fr" (Some 1) 3))
       st')
  = contentitems st'.
Proof.
  apply (save_again_keeps_table "en" pool accepts new_item
           (text_item (Some 5) "fr" (Some 1) 3) store).
  vm_compute. reflexivity.
Defined.

(** The new item shows up under the main placeholder. *)
Lemma saved_item_is_listed_witness :
  text_item (Some 5) "fr" (Some 1) 3
  ∈ select (Placeholder_get_content_items main None true)
      (exec (ContentItem_save "en" pool accepts new_item) store).
Proof.
  apply (saved_item_is_listed "en" pool accepts new_item
           (text_item (Some 5) "fr" (Some 1) 3) store);
    [vm_compute; reflexivity|reflexivity..].
Defined.

(** Deleting the French item of the main placeholder. *)
Lemma delete_removes_row_and_cache_keys_witness :
  ∃ st',
    ContentItem_delete pool fr_item store = (Ok (set_pk None fr_item), st')
    ∧ contentitems st' !! 2 = None
    ∧ cache st' !! "contentitem.@main.fr" = None.
Proof.
  destruct (delete_removes_row_and_cache_keys pool fr_item 2
              ["contentitem.@main.fr"] store)
    as (st' & Hrun & Hrow & _ & _ & Hkeys & _); [reflexivity|reflexivity|].
  exists st'. split; [exact Hrun|]. split; [exact Hrow|].
  apply Hkeys. by left.
Defined.

(** A missing placeholder row, and a plugin that is not registered. *)
Lemma get_cache_keys_errors_witness :
  ContentItem_get_cache_keys pool dangling_item store
  = (Raise DoesNotExist, store)
  ∧ ContentItem_get_cache_keys pool unknown_item store
    = (Raise PluginNotFound, store).
Proof.
  destruct (get_cache_keys_errors pool dangling_item 77 store)
    as [Hmissing _]; [reflexivity|lia|].
  destruct (get_cache_keys_errors pool unknown_item 1 store)
    as [_ Hplugin]; [reflexivity|lia|].
  split; [by apply Hmissing|]. by apply (Hplugin main).
Defined.

(** The row goes although the call raises. *)
Lemma delete_with_unregistered_plugin_witness :
  ∃ st',
    ContentItem_delete pool unknown_item drift_store
    = (Raise PluginNotFound, st')
    ∧ contentitems st' !! 1 = None
    ∧ cache st' = cache drift_store.
Proof.
  destruct (delete_with_unregistered_plugin pool unknown_item 1 1 main
              drift_store)
    as (st' & Hrun & Hrows & Hcache); [reflexivity|reflexivity|lia|reflexivity..|].
  exists st'. split; [exact Hrun|]. split; [|exact Hcache].
  rewrite Hrows. apply lookup_delete_eq.
Defined.

(** A failed invalidation leaves the cache as it was. *)
Lemma clear_cache_frame_witness :
  cache (exec (ContentItem_clear_cache pool unknown_item) store) = cache store.
Proof.
  destruct (clear_cache_frame pool unknown_item store)
    as (_ & _ & _ & _ & Hfail).
  apply Hfail. by vm_compute.
Defined.

(** No item is listed under the main placeholder once it is deleted. *)
Lemma placeholder_delete_empties_queries_witness :
  select (Placeholder_get_content_items main None true)
    (exec (Placeholder_delete main) store)
  = [].
Proof.
  apply (placeholder_delete_empties_queries main 1). reflexivity.
Defined.

(** The rendering cached for the detached item stays in the cache. *)
Lemma detached_items_have_no_cache_keys_witness :
  let st' := exec (Placeholder_delete main) store in
  ∃ row',
    contentitems st' !! 2 = Some row'
    ∧ ContentItem_get_cache_keys pool (load_item (2, row')) st' = (Ok [], st')
    ∧ cache st' !! "contentitem.@main.fr" = Some "<p>bonjour</p>".
Proof.
  intros st'.
  destruct (detached_items_have_no_cache_keys main 1 2 fr_item store pool)
    as (row' & Hrow & Hkeys & Hcache); [reflexivity..|].
  exists row'. split; [exact Hrow|]. split; [exact Hkeys|].
  subst st'. rewrite Hcache. reflexivity.
Defined.

(** The French item is found through its link to the main placeholder. *)
Lemma get_content_items_from_linked_rows_witness :
  placeholder_id fr_item = ph_pk main.
Proof.
  destruct (get_content_items_from_linked_rows main (Some page) true store
              fr_item) as (Hlinked & _); [|exact Hlinked].
  apply elem_of_select. split; [reflexivity|].
  exists 2, fr_item. split; reflexivity.
Defined.

(** The main placeholder and its French item share the page; the stale
    placeholder and the stale item share a content type that no longer
    loads. *)
Lemma urls_of_placeholder_and_item_agree_witness :
  Placeholder_get_absolute_url main store
  = ContentItem_get_absolute_url fr_item store
  ∧ Placeholder_get_absolute_url stale_placeholder store = (Ok None, store)
  ∧ ContentItem_get_absolute_url stale_item store
    = (Raise AttributeError, store).
Proof.
  destruct (urls_of_placeholder_and_item_agree main fr_item store)
    as [Hsame _]; [reflexivity..|].
  destruct (urls_of_placeholder_and_item_agree stale_placeholder stale_item
              store) as [_ Hstale]; [reflexivity..|].
  split; [apply Hsame; by vm_compute|]. apply Hstale. reflexivity.
Defined.

(** The French rendering is gone with the French items. *)
Lemma translation_delete_clears_cache_witness :
  cache (exec (on_delete_model_translation pool fr_deleted) store)
    !! "contentitem.@main.fr"
  = None.
Proof.
  assert (Hitems : select (translation_items fr_deleted) store
                   = [fr_item; text_item (Some 3) "fr" (Some 2) 1])
    by (vm_compute; reflexivity).
  destruct (translation_delete_clears_cache pool fr_deleted store)
    as (Hgone & _).
  { rewrite Hitems. intros item Hin.
    apply elem_of_cons in Hin as [->|Hin]; [exact I|].
    apply list_elem_of_singleton in Hin as ->. exact I. }
  apply (Hgone fr_item); [rewrite Hitems; by left|].
  change (ok_or [] (cache_keys_in pool store (set_pk None fr_item)))
    with ["contentitem.@main.fr"].
  by left.
Defined.

(** The first French item has lost its plugin; the second one stays. *)
Lemma translation_delete_stops_at_failure_witness :
  ∃ st',
    on_delete_model_translation pool fr_deleted drift_store
    = (Raise PluginNotFound, st')
    ∧ contentitems st' !! 1 = None
    ∧ contentitems st' !! 2 = Some fr_item.
Proof.
  destruct (translation_delete_stops_at_failure pool fr_deleted unknown_item
              [fr_item] PluginNotFound drift_store)
    as (st' & Hrun & Hrows & _); [vm_compute; reflexivity|reflexivity|].
  exists st'. split; [exact Hrun|]. rewrite Hrows. split; reflexivity.
Defined.

End more_examples.
